(** * img2caps: the registry-building and design-generation scripts

    A shallow embedding of the Python scripts under [python_scripts/]:

    - [fix_color_registry_codes.py]   (module [CodeNormalizer])
    - [build_color_registry.py]       (module [SwatchSampler])
    - [create_hex_color_registry.py]  (module [HexRegistry])
    - [build_key_position_registry.py] (module [Geometry])
    - [generate_design_from_image.py] (module [DesignGenerator])

    Conventions of the embedding.

    - A Python [str] is a [string]; every character stands for a code point
      below 256, so the regular-expression class [\d] is the ten ASCII
      digits and [[A-Z]] the twenty-six ASCII capitals.
    - A Python [dict] is an association list in insertion order
      (module [PyDict]); assignment to a present key replaces the value in
      place, assignment to an absent key appends.
    - A Python exception is a value of [exn]; code that can raise returns a
      [result].
    - A Python [float] is a [PyFloat.t]: an exact rational, one of the two
      infinities, or NaN.  Rounding error and overflow of binary floating
      point are not modelled. *)

From Stdlib Require Import String Ascii List Bool Arith NArith ZArith QArith Lia.
From Stdlib Require Import DecimalString Sorted Permutation.
From Stdlib Require Qround.
Import ListNotations.

Close Scope Q_scope.
Local Open Scope nat_scope.
Local Open Scope string_scope.
Local Open Scope list_scope.

(* ================================================================== *)
(** ** Exceptions *)

Inductive exn : Type :=
| ValueError
| KeyError
| IndexError
| ZeroDivisionError
| OverflowError
| AssertionError.

Inductive result (A : Type) : Type :=
| Ok (a : A)
| Raise (e : exn).
Arguments Ok {A} a.
Arguments Raise {A} e.

Definition bind {A B : Type} (r : result A) (k : A -> result B) : result B :=
  match r with
  | Ok a => k a
  | Raise e => Raise e
  end.

Declare Scope py_scope.
Notation "x <- c ;; k" := (bind c (fun x => k))
  (at level 61, c at next level, right associativity) : py_scope.
Notation "' p <- c ;; k" := (bind c (fun x => match x with p => k end))
  (at level 61, p pattern, c at next level, right associativity) : py_scope.

Definition is_ok {A : Type} (r : result A) : bool :=
  match r with Ok _ => true | Raise _ => false end.

(* ================================================================== *)
(** ** Characters *)

Definition code_point (c : ascii) : N := N_of_ascii c.

Definition in_range (lo hi : N) (c : ascii) : bool :=
  (lo <=? code_point c)%N && (code_point c <=? hi)%N.

(** [[A-Z]] *)
Definition is_upper : ascii -> bool := in_range 65 90.

(** [\d] *)
Definition is_digit : ascii -> bool := in_range 48 57.

Definition digit_value (c : ascii) : N := (code_point c - 48)%N.

Definition newline : ascii := ascii_of_N 10.

Fixpoint all_digits (s : string) : bool :=
  match s with
  | EmptyString => true
  | String c s' => is_digit c && all_digits s'
  end.

Fixpoint all_upper (s : string) : bool :=
  match s with
  | EmptyString => true
  | String c s' => is_upper c && all_upper s'
  end.

(** Longest prefix of digits, and what follows it: a greedy [\d*]. *)
Fixpoint span_digits (s : string) : string * string :=
  match s with
  | EmptyString => (EmptyString, EmptyString)
  | String c s' =>
      if is_digit c
      then let (d, r) := span_digits s' in (String c d, r)
      else (EmptyString, s)
  end.

(** [int(digits)] on a run of digits. *)
Fixpoint int_acc (acc : N) (s : string) : N :=
  match s with
  | EmptyString => acc
  | String c s' => int_acc (acc * 10 + digit_value c)%N s'
  end.
Definition int (digits : string) : N := int_acc 0 digits.

Fixpoint zeros (n : nat) : string :=
  match n with
  | O => EmptyString
  | S n' => String "0" (zeros n')
  end.

(** [s.zfill(w)] on a string without sign. *)
Definition zfill (w : nat) (s : string) : string :=
  (zeros (w - String.length s) ++ s)%string.

(** An entry of the colour registry document:
    [{"file": <path>, "rgb": [r, g, b]}]. *)
Record ColorEntry : Type := mkColorEntry {
  file : string;
  rgb : list Z
}.

(* ================================================================== *)
(** ** Insertion-ordered dictionaries *)

Module PyDict.
Section Dict.
Context {V : Type}.

Definition dict : Type := list (string * V).

Definition empty : dict := [].

Fixpoint get (k : string) (d : dict) : option V :=
match d with
| [] => None
| (k', v) :: d' => if String.eqb k k' then Some v else get k d'
end.

(** [k in d] *)
Definition mem (k : string) (d : dict) : bool :=
match get k d with Some _ => true | None => false end.

(** [d[k] = v] *)
Fixpoint set (k : string) (v : V) (d : dict) : dict :=
match d with
| [] => [(k, v)]
| (k', v') :: d' =>
    if String.eqb k k' then (k', v) :: d' else (k', v') :: set k v d'
end.

Definition keys (d : dict) : list string := map fst d.
Definition values (d : dict) : list V := map snd d.
Definition items (d : dict) : list (string * V) := d.

(** What [json.load] and every dict-building loop guarantee. *)
Definition wf (d : dict) : Prop := NoDup (keys d).

End Dict.
Arguments dict V : clear implicits.
End PyDict.

(* ================================================================== *)
(** ** fix_color_registry_codes.py *)

Module CodeNormalizer.

(** [$] without [re.MULTILINE]: the end of the string, or just before a
    newline that is the last character. *)
Definition at_dollar (r : string) : bool :=
  match r with
  | EmptyString => true
  | String c EmptyString => Ascii.eqb c newline
  | _ => false
  end.

(** [(\d+)$] against the whole of [s]; the group on success. *)
Definition digits_dollar (s : string) : option string :=
  let (d, r) := span_digits s in
  match d with
  | EmptyString => None
  | _ => if at_dollar r then Some d else None
  end.

(** [CODE_RE = re.compile(r"^([A-Z]{2})(\d+)$")], [CODE_RE.match(code)]
    and [m.groups()]. *)
Definition CODE_RE (code : string) : option (string * string) :=
  match code with
  | String a (String b rest) =>
      if is_upper a && is_upper b then
        match digits_dollar rest with
        | Some digits => Some (String a (String b EmptyString), digits)
        | None => None
        end
      else None
  | _ => None
  end.

(** [I_MIS_OCR_RE = re.compile(r"^([A-Z]{2})I(\d+)$")]. *)
Definition I_MIS_OCR_RE (code : string) : option (string * string) :=
  match code with
  | String a (String b (String i rest)) =>
      if is_upper a && is_upper b && Ascii.eqb i "I"%char then
        match digits_dollar rest with
        | Some digits => Some (String a (String b EmptyString), digits)
        | None => None
        end
      else None
  | _ => None
  end.

(** [f"{n:03d}"] for [n >= 0]. *)
Definition format_03d (n : N) : string :=
  zfill 3 (NilZero.string_of_uint (N.to_uint n)).

Definition normalize_code (code : string) : string :=
  (* Step 1: two letters + 'I' mistaken for '1'. *)
  let code :=
    match I_MIS_OCR_RE code with
    | Some (prefix, digits) => (prefix ++ "1" ++ digits)%string
    | None => code
    end in
  (* Step 2: pad the numeric part to 3 digits. *)
  match CODE_RE code with
  | None => code
  | Some (prefix, digits) =>
      if (3 <=? String.length digits)%nat then code
      else (prefix ++ format_03d (int digits))%string
  end.

Definition pad_code (code : string) : string :=
  match CODE_RE code with
  | None => code
  | Some (prefix, num) =>
      if (3 <=? String.length num)%nat then code
      else (prefix ++ format_03d (int num))%string
  end.

(** The state of the loop of [main]: the two accumulators and the lines
    printed with the [[warn]] tag, as (raw code, normalised code). *)
Record fix_state : Type := mkFixState {
  remapped : PyDict.dict ColorEntry;
  changed : list (string * string);
  warned : list (string * string)
}.

Definition fix_init : fix_state :=
  {| remapped := PyDict.empty; changed := []; warned := [] |}.

Definition fix_step (st : fix_state) (item : string * ColorEntry) : fix_state :=
  let (code, entry) := item in
  let new_code := normalize_code code in
  if PyDict.mem new_code (remapped st) then
    {| remapped := remapped st;
       changed := changed st;
       warned := warned st ++ [(code, new_code)] |}
  else
    {| remapped := PyDict.set new_code entry (remapped st);
       changed := if String.eqb new_code code then changed st
                  else changed st ++ [(code, new_code)];
       warned := warned st |}.

(** The [for code, entry in registry.items()] loop of [main].  The script
    then sorts [changed] for its report, and dumps [remapped]. *)
Definition fix_registry (registry : PyDict.dict ColorEntry) : fix_state :=
  fold_left fix_step (PyDict.items registry) fix_init.

End CodeNormalizer.


(* ================================================================== *)
(** ** build_color_registry.py *)

Module SwatchSampler.

(** The box [(left, top, right, bottom)] that [sample_color] crops from
    an image of size [width] x [height] before taking the per-channel
    median. *)
Definition sample_box (width height : Z) : Z * Z * Z * Z :=
  let left := Z.min 70 (width - 1) in
  let right := Z.min 170 width in
  let top := Z.min 25 (height - 1) in
  let bottom := Z.min 80 height in
  (left, top, right, bottom).

End SwatchSampler.

(* ================================================================== *)
(** ** create_hex_color_registry.py *)

Module HexRegistry.

Definition hex_digit (n : N) : ascii :=
  if (n <? 10)%N then ascii_of_N (48 + n) else ascii_of_N (87 + n).

Fixpoint hex_acc (fuel : nat) (n : N) (acc : string) : string :=
  match fuel with
  | O => String (hex_digit (n mod 16)) acc
  | S fuel' =>
      if (n <? 16)%N then String (hex_digit n) acc
      else hex_acc fuel' (n / 16) (String (hex_digit (n mod 16)) acc)
  end.

(** [format(n, "x")] for [n >= 0]: lowercase, no prefix. *)
Definition hex (n : N) : string := hex_acc (N.to_nat (N.log2 n)) n "".

(** ['{:02x}'.format(z)]: the sign counts in the width of 2. *)
Definition format_02x (z : Z) : string :=
  if (z <? 0)%Z then String "-" (zfill 1 (hex (Z.abs_N z)))
  else zfill 2 (hex (Z.to_N z)).

(** [[0-9a-f]] *)
Definition is_lower_hex (c : ascii) : bool := is_digit c || in_range 97 102 c.

Fixpoint all_lower_hex (s : string) : bool :=
  match s with
  | EmptyString => true
  | String c s' => is_lower_hex c && all_lower_hex s'
  end.

(** [rgb[i]] *)
Definition index (l : list Z) (i : nat) : result Z :=
  match nth_error l i with
  | Some z => Ok z
  | None => Raise IndexError
  end.

Local Open Scope py_scope.

Definition rgb_to_hex (rgb : list Z) : result string :=
  r <- index rgb 0 ;;
  g <- index rgb 1 ;;
  b <- index rgb 2 ;;
  Ok ("#" ++ format_02x r ++ format_02x g ++ format_02x b)%string.

Definition hex_step (acc : result (PyDict.dict string))
           (item : string * ColorEntry) : result (PyDict.dict string) :=
  hex_registry <- acc ;;
  let (color_code, data) := item in
  if (List.length (rgb data) =? 3)%nat then
    hex_code <- rgb_to_hex (rgb data) ;;
    Ok (PyDict.set hex_code color_code hex_registry)
  else Ok hex_registry.

(** The dictionary that [create_hex_color_registry] dumps to
    [output_file]. *)
Definition create_hex_color_registry (color_registry : PyDict.dict ColorEntry)
  : result (PyDict.dict string) :=
  fold_left hex_step (PyDict.items color_registry) (Ok PyDict.empty).

End HexRegistry.

(* ================================================================== *)
(** ** Floating-point numbers *)

Module PyFloat.

Inductive t : Type :=
| Fin (q : Q)
| PInf
| NInf
| NaN.

Definition of_Z (z : Z) : t := Fin (inject_Z z).

Definition zero : t := of_Z 0.

Definition is_zero (a : t) : bool :=
  match a with Fin q => Qeq_bool q 0 | _ => false end.

Definition is_finite (a : t) : bool :=
  match a with Fin _ => true | _ => false end.

(** [a < b] *)
Definition ltb (a b : t) : bool :=
  match a, b with
  | NaN, _ | _, NaN => false
  | Fin p, Fin q => negb (Qle_bool q p)
  | NInf, NInf => false
  | NInf, _ => true
  | _, NInf => false
  | PInf, _ => false
  | Fin _, PInf => true
  end.

(** [a == b] *)
Definition eqb (a b : t) : bool :=
  match a, b with
  | Fin p, Fin q => Qeq_bool p q
  | PInf, PInf | NInf, NInf => true
  | _, _ => false
  end.

(** [min(a, b)]: [b] replaces [a] only when [b < a]. *)
Definition min2 (a b : t) : t := if ltb b a then b else a.

(** [max(a, b)]: [b] replaces [a] only when [b > a]. *)
Definition max2 (a b : t) : t := if ltb a b then b else a.

(** [max(xs)] *)
Definition max_of (xs : list t) : result t :=
  match xs with
  | [] => Raise ValueError
  | x :: xs' => Ok (fold_left max2 xs' x)
  end.

Definition neg (a : t) : t :=
  match a with
  | Fin q => Fin (Qred (- q))
  | PInf => NInf
  | NInf => PInf
  | NaN => NaN
  end.

Definition add (a b : t) : t :=
  match a, b with
  | NaN, _ | _, NaN => NaN
  | Fin p, Fin q => Fin (Qred (p + q))
  | PInf, NInf | NInf, PInf => NaN
  | PInf, _ | _, PInf => PInf
  | NInf, _ | _, NInf => NInf
  end.

Definition sub (a b : t) : t := add a (neg b).

Definition signed_inf (positive : bool) : t := if positive then PInf else NInf.

Definition sign_pos (a : t) : bool :=
  match a with
  | Fin q => Qle_bool 0 q
  | PInf => true
  | NInf => false
  | NaN => true
  end.

Definition mul (a b : t) : t :=
  match a, b with
  | NaN, _ | _, NaN => NaN
  | Fin p, Fin q => Fin (Qred (p * q))
  | _, _ =>
      if is_zero a || is_zero b then NaN
      else signed_inf (Bool.eqb (sign_pos a) (sign_pos b))
  end.

(** [a / b] *)
Definition div (a b : t) : result t :=
  if is_zero b then Raise ZeroDivisionError
  else
    Ok match a, b with
       | NaN, _ | _, NaN => NaN
       | Fin p, Fin q => Fin (Qred (p / q))
       | Fin _, _ => zero
       | _, Fin _ => signed_inf (Bool.eqb (sign_pos a) (sign_pos b))
       | _, _ => NaN
       end.

(** Nearest integer, ties to the even one. *)
Definition round_half_even (q : Q) : Z :=
  let f := Qround.Qfloor q in
  let r := (q - inject_Z f)%Q in
  match (r ?= 1 # 2)%Q with
  | Lt => f
  | Gt => (f + 1)%Z
  | Eq => if Z.even f then f else (f + 1)%Z
  end.

(** [round(a, 4)] *)
Definition round4 (a : t) : t :=
  match a with
  | Fin q => Fin (Qred (inject_Z (round_half_even (q * 10000)) / 10000))
  | _ => a
  end.

(** [int(a)]: truncation towards zero. *)
Definition trunc (a : t) : result Z :=
  match a with
  | Fin q => Ok (Z.quot (Qnum q) (Zpos (Qden q)))
  | PInf | NInf => Raise OverflowError
  | NaN => Raise ValueError
  end.

End PyFloat.

(* ================================================================== *)
(** ** [float(s)] on strings *)

Module FloatParse.
Import PyFloat.

(** The characters [float] strips from both ends. *)
Definition is_space (c : ascii) : bool :=
  in_range 9 13 c || in_range 32 32 c || in_range 133 133 c
  || in_range 160 160 c.

Fixpoint lstrip (s : string) : string :=
  match s with
  | EmptyString => EmptyString
  | String c s' => if is_space c then lstrip s' else s
  end.

Fixpoint rstrip (s : string) : string :=
  match s with
  | EmptyString => EmptyString
  | String c s' =>
      match rstrip s' with
      | EmptyString => if is_space c then EmptyString else String c EmptyString
      | r => String c r
      end
  end.

Definition strip (s : string) : string := rstrip (lstrip s).

(** Digit-group underscores: each one stands between two digits; they
    are removed before the number is read. *)
Fixpoint drop_underscores (prev_digit : bool) (s : string) : option string :=
  match s with
  | EmptyString => Some EmptyString
  | String c s' =>
      if Ascii.eqb c "_"%char then
        match s' with
        | String d _ =>
            if prev_digit && is_digit d then drop_underscores false s'
            else None
        | EmptyString => None
        end
      else option_map (String c) (drop_underscores (is_digit c) s')
  end.

(** A leading sign. *)
Definition take_sign (s : string) : bool * string :=
  match s with
  | String c s' =>
      if Ascii.eqb c "-"%char then (true, s')
      else if Ascii.eqb c "+"%char then (false, s')
      else (false, s)
  | EmptyString => (false, s)
  end.

(** [m * 10^e] *)
Definition scale10 (m e : Z) : Q :=
  if (0 <=? e)%Z then inject_Z (m * 10 ^ e)
  else Qred (Qmake m (Z.to_pos (10 ^ (- e)))).

(** [[eE][+-]?\d+] up to the end of the string, or nothing. *)
Definition parse_exponent (r : string) : option Z :=
  match r with
  | EmptyString => Some 0%Z
  | String c r' =>
      if Ascii.eqb c "e"%char || Ascii.eqb c "E"%char then
        let (negative, r'') := take_sign r' in
        match span_digits r'' with
        | (String d ds, EmptyString) =>
            let e := Z.of_N (int (String d ds)) in
            Some (if negative then (- e)%Z else e)
        | _ => None
        end
      else None
  end.

(** An unsigned decimal literal: digits with an optional point and
    further digits, or a point and digits; then an optional exponent. *)
Definition parse_decimal (s : string) : option Q :=
  let (ip, r1) := span_digits s in
  let (fp, r2) :=
    match r1 with
    | String c r => if Ascii.eqb c "."%char then span_digits r
                    else (EmptyString, r1)
    | EmptyString => (EmptyString, EmptyString)
    end in
  match (ip ++ fp)%string with
  | EmptyString => None
  | mantissa =>
      match parse_exponent r2 with
      | Some e =>
          Some (scale10 (Z.of_N (int mantissa))
                        (e - Z.of_nat (String.length fp)))
      | None => None
      end
  end.

Definition lower (c : ascii) : ascii :=
  if is_upper c then ascii_of_N (code_point c + 32) else c.

Fixpoint lower_string (s : string) : string :=
  match s with
  | EmptyString => EmptyString
  | String c s' => String (lower c) (lower_string s')
  end.

(** [inf], [infinity] and [nan] in any case. *)
Definition parse_special (s : string) : option t :=
  let l := lower_string s in
  if String.eqb l "inf" || String.eqb l "infinity" then Some PInf
  else if String.eqb l "nan" then Some NaN
  else None.

(** [float(s)] for a string [s]. *)
Definition float (s : string) : result t :=
  match drop_underscores false (strip s) with
  | None => Raise ValueError
  | Some s1 =>
      let (negative, body) := take_sign s1 in
      match parse_decimal body with
      | Some q => Ok (if negative then neg (Fin q) else Fin q)
      | None =>
          match parse_special body with
          | Some x => Ok (if negative then neg x else x)
          | None => Raise ValueError
          end
      end
  end.

End FloatParse.

(* ================================================================== *)
(** ** build_key_position_registry.py *)

Module Geometry.
Import PyFloat.
Local Open Scope py_scope.

(** One keyboard unit is 19.05 mm. *)
Definition UNIT_MM : t := Fin (1905 # 100).

(** The [<rect>] found below a key element, with its [width] and
    [height] attributes when present. *)
Record Rect : Type := mkRect {
  rect_width : option string;
  rect_height : option string
}.

(** An element with a [data-key-id] attribute, as [soup.find_all]
    yields it. *)
Record KeyElem : Type := mkKeyElem {
  data_key_id : string;
  data_key_x : option string;
  data_key_y : option string;
  data_key_labelid : option string;
  rect : option Rect
}.

(** An entry of the key position registry. *)
Record KeyEntry : Type := mkKeyEntry {
  label : option string;
  x_u : t;
  y_u : t;
  width_u : t;
  height_u : t;
  left_u : t;
  top_u : t;
  right_u : t;
  bottom_u : t
}.

(** The four sides of the normalised box are numbers. *)
Definition finite_box (e : KeyEntry) : bool :=
  is_finite (left_u e) && is_finite (top_u e)
  && is_finite (right_u e) && is_finite (bottom_u e).

(** The token [-?\d+\.\d+|-?\d+] matched at the head of [s], which
    starts with a digit. *)
Definition number_at (s : string) : string :=
  let (d1, r) := span_digits s in
  match r with
  | String c r' =>
      if Ascii.eqb c "."%char then
        match span_digits r' with
        | (EmptyString, _) => d1
        | (d2, _) => (d1 ++ "." ++ d2)%string
        end
      else d1
  | EmptyString => d1
  end.

Definition starts_with_digit (s : string) : bool :=
  match s with
  | String c _ => is_digit c
  | EmptyString => false
  end.

(** The first element of [re.findall(r"-?\d+\.\d+|-?\d+", s)]. *)
Fixpoint first_token (s : string) : option string :=
  match s with
  | EmptyString => None
  | String c s' =>
      if is_digit c then Some (number_at s)
      else if Ascii.eqb c "-"%char && starts_with_digit s'
           then Some (String c (number_at s'))
           else first_token s'
  end.

(** [float(elem.get(name, 0))] *)
Definition float_attr (a : option string) : result t :=
  match a with
  | Some s => FloatParse.float s
  | None => Ok zero
  end.

(** [float(re.findall(..., elem.get(name, "0"))[0])] *)
Definition float_first_token (a : option string) : result t :=
  match first_token (match a with Some s => s | None => "0" end) with
  | Some tok => FloatParse.float tok
  | None => Raise IndexError
  end.

(** The [try] / [except ValueError] block that reads a key's position. *)
Definition position (elem : KeyElem) : result (t * t) :=
  match (x <- float_attr (data_key_x elem) ;;
         y <- float_attr (data_key_y elem) ;;
         Ok (x, y)) with
  | Raise ValueError =>
      x <- float_first_token (data_key_x elem) ;;
      y <- float_first_token (data_key_y elem) ;;
      Ok (x, y)
  | r => r
  end.

(** [float(rect[name])] *)
Definition float_item (a : option string) : result t :=
  match a with
  | Some s => FloatParse.float s
  | None => Raise KeyError
  end.

Definition raw_key : Type := string * t * t * t * t * option string.

(** The state of the first pass. *)
Record pass1 : Type := mkPass1 {
  raw : list raw_key;
  min_x : t;
  min_y : t
}.

Definition pass1_init : pass1 :=
  {| raw := []; min_x := PInf; min_y := PInf |}.

(** The body of the first loop. *)
Definition gather (st : pass1) (elem : KeyElem) : result pass1 :=
  let key_id := data_key_id elem in
  ' (x, y) <- position elem ;;
  (* Track min for normalization later *)
  let min_x' := min2 (min_x st) x in
  let min_y' := min2 (min_y st) y in
  let label := data_key_labelid elem in
  match rect elem with
  | None => Ok {| raw := raw st; min_x := min_x'; min_y := min_y' |}
  | Some r =>
      width_mm <- float_item (rect_width r) ;;
      height_mm <- float_item (rect_height r) ;;
      w <- div width_mm UNIT_MM ;;
      h <- div height_mm UNIT_MM ;;
      let width_u := round4 w in
      let height_u := round4 h in
      Ok {| raw := raw st ++ [(key_id, x, y, width_u, height_u, label)];
            min_x := min_x'; min_y := min_y' |}
  end.

Fixpoint first_pass (st : pass1) (elems : list KeyElem) : result pass1 :=
  match elems with
  | [] => Ok st
  | elem :: elems' => st' <- gather st elem ;; first_pass st' elems'
  end.

Definition raw_id (k : raw_key) : string :=
  let '(key_id, _, _, _, _, _) := k in key_id.
Definition raw_x (k : raw_key) : t :=
  let '(_, x, _, _, _, _) := k in x.
Definition raw_y (k : raw_key) : t :=
  let '(_, _, y, _, _, _) := k in y.

(** The entry that the second loop builds for a gathered key. *)
Definition entry_of (min_x min_y : t) (k : raw_key) : KeyEntry :=
  let '(_, x, y, width_u, height_u, label) := k in
  (* Offset so that top-left key starts at (0,0) *)
  let norm_x := sub x min_x in
  let norm_y := sub y min_y in
  {| label := label;
     x_u := x;
     y_u := y;
     width_u := width_u;
     height_u := height_u;
     (* Normalized (0,0) origin for imaging purposes *)
     left_u := round4 norm_x;
     top_u := round4 norm_y;
     right_u := round4 (add norm_x width_u);
     bottom_u := round4 (add norm_y height_u) |}.

(** The body of the second loop. *)
Definition normalize (min_x min_y : t)
           (registry : PyDict.dict KeyEntry) (k : raw_key)
  : PyDict.dict KeyEntry :=
  PyDict.set (raw_id k) (entry_of min_x min_y k) registry.

(** [parse_key_layout] on the key elements of the parsed document, in
    document order. *)
Definition parse_key_layout (elems : list KeyElem)
  : result (PyDict.dict KeyEntry) :=
  st <- first_pass pass1_init elems ;;
  Ok (fold_left (normalize (min_x st) (min_y st)) (raw st) PyDict.empty).

End Geometry.

(* ================================================================== *)
(** ** generate_design_from_image.py *)

Module DesignGenerator.
Import PyFloat.
Local Open Scope py_scope.

Definition RGB : Type := (Z * Z * Z)%type.
Definition BBox : Type := (Z * Z * Z * Z)%type.

(** The square of [rgb_distance(c1, c2)].  The distance itself is the
    square root of this sum, and the only use of a distance is the
    comparison [dist < best_dist], which two non-negative numbers pass
    exactly when their squares do.  [c2] is the [rgb] list of a palette
    entry: numpy subtracts it from the triple [c1] componentwise, repeats
    a single element three times, and refuses any other length. *)
Definition rgb_distance (c1 : RGB) (c2 : list Z) : result Z :=
  let '(r, g, b) := c1 in
  match c2 with
  | [r2; g2; b2] => Ok ((r - r2) ^ 2 + (g - g2) ^ 2 + (b - b2) ^ 2)%Z
  | [v] => Ok ((r - v) ^ 2 + (g - v) ^ 2 + (b - v) ^ 2)%Z
  | _ => Raise ValueError
  end.

(** [dist < best_dist], where [None] is [float("inf")]. *)
Definition closer (dist : Z) (best_dist : option Z) : bool :=
  match best_dist with
  | None => true
  | Some b => (dist <? b)%Z
  end.

(** Every entry of [items] is at distance [d] or more from [rgb0]; when
    [strict], at more than [d]. *)
Definition farther (rgb0 : RGB) (strict : bool) (d : Z)
           (items : list (string * ColorEntry)) : Prop :=
  forall k e, In (k, e) items ->
    exists d', rgb_distance rgb0 (rgb e) = Ok d' /\
               if strict then (d < d')%Z else (d <= d')%Z.

(** The loop of [nearest_yuzu_color] over [palette.items()]. *)
Fixpoint nearest_loop (rgb0 : RGB) (items : list (string * ColorEntry))
         (best_code : option string) (best_dist : option Z)
  : result (option string) :=
  match items with
  | [] => Ok best_code
  | (code, entry) :: items' =>
      dist <- rgb_distance rgb0 (rgb entry) ;;
      if closer dist best_dist
      then nearest_loop rgb0 items' (Some code) (Some dist)
      else nearest_loop rgb0 items' best_code best_dist
  end.

Definition nearest_yuzu_color (rgb0 : RGB) (palette : PyDict.dict ColorEntry)
  : result string :=
  best_code <- nearest_loop rgb0 (PyDict.items palette) None None ;;
  match best_code with
  | Some code => Ok code
  | None => Raise AssertionError
  end.

(** [int(u * px_per_u)] *)
Definition to_px (u px_per_u : t) : result Z := trunc (mul u px_per_u).

Fixpoint bbox_loop (px_per_u : t) (items : list (string * Geometry.KeyEntry))
         (bboxes : PyDict.dict BBox) : result (PyDict.dict BBox) :=
  match items with
  | [] => Ok bboxes
  | (key_id, key) :: items' =>
      x0 <- to_px (Geometry.left_u key) px_per_u ;;
      y0 <- to_px (Geometry.top_u key) px_per_u ;;
      x1 <- to_px (Geometry.right_u key) px_per_u ;;
      y1 <- to_px (Geometry.bottom_u key) px_per_u ;;
      bbox_loop px_per_u items' (PyDict.set key_id (x0, y0, x1, y1) bboxes)
  end.

(** [build_keyboard_bbox_map], given [image.width]. *)
Definition build_keyboard_bbox_map (image_width : Z)
           (registry : PyDict.dict Geometry.KeyEntry)
  : result (PyDict.dict BBox) :=
  total_width_u <- max_of (map Geometry.right_u (PyDict.values registry)) ;;
  px_per_u <- div (of_Z image_width) total_width_u ;;
  bbox_loop px_per_u (PyDict.items registry) PyDict.empty.

(** A top-level field of the design document: the colour map, or any
    other JSON value, kept as its text. *)
Inductive Field : Type :=
| Colors (m : PyDict.dict string)
| Other (text : string).

Definition Document : Type := PyDict.dict Field.

Definition customizedColor (doc : Document) : option (PyDict.dict string) :=
  match PyDict.get "customizedColor" doc with
  | Some (Colors m) => Some m
  | _ => None
  end.

Section Main.
(** Pillow: the image type, [image.width], [image.crop(bbox)], and
    [dominant_color], whose quantisation is Pillow's own. *)
Variable Image : Type.
Variable width : Image -> Z.
Variable crop : Image -> BBox -> Image.
Variable dominant_color : Image -> result RGB.

Fixpoint color_loop (img : Image) (palette : PyDict.dict ColorEntry)
         (items : list (string * BBox))
         (customized_colors : PyDict.dict string)
  : result (PyDict.dict string) :=
  match items with
  | [] => Ok customized_colors
  | (key_id, bbox) :: items' =>
      let cropped := crop img bbox in
      dom_rgb <- dominant_color cropped ;;
      yuzu_code <- nearest_yuzu_color dom_rgb palette ;;
      color_loop img palette items'
                 (PyDict.set key_id yuzu_code customized_colors)
  end.

(** [main], from the loaded registries, template and image to the
    document it dumps. *)
Definition main (registry : PyDict.dict Geometry.KeyEntry)
           (palette : PyDict.dict ColorEntry)
           (base_json : Document) (img : Image) : result Document :=
  bbox_map <- build_keyboard_bbox_map (width img) registry ;;
  customized_colors <-
    color_loop img palette (PyDict.items bbox_map) PyDict.empty ;;
  Ok (PyDict.set "customizedColor" (Colors customized_colors) base_json).
End Main.

End DesignGenerator.

(* ================================================================== *)
(** ** build_color_registry.py: sampling and the registry loop *)

Module ColorRegistryBuild.
Local Open Scope py_scope.

(** An image in RGB mode: its size and the colour of each pixel. *)
Record Image : Type := mkImage {
  width : Z;
  height : Z;
  getpixel : Z -> Z -> Z * Z * Z
}.

(** The integers [lo], [lo + 1], ..., [hi - 1]. *)
Definition range (lo hi : Z) : list Z :=
  map (fun i => (lo + Z.of_nat i)%Z) (seq 0 (Z.to_nat (hi - lo))).

(** A pixel of [image.crop(box)]: Pillow fills what lies outside the
    image with black. *)
Definition pixel_or_black (image : Image) (x y : Z) : Z * Z * Z :=
  if ((0 <=? x) && (x <? width image) && (0 <=? y) && (y <? height image))%Z
  then getpixel image x y
  else (0, 0, 0)%Z.

(** [np.array(image.crop(box)).reshape(-1, 3)]: the pixels of the box,
    row after row. *)
Definition region_pixels (image : Image) (box : Z * Z * Z * Z)
  : list (Z * Z * Z) :=
  let '(x0, y0, x1, y1) := box in
  flat_map (fun y => map (fun x => pixel_or_black image x y) (range x0 x1))
           (range y0 y1).

Fixpoint insert (x : Z) (l : list Z) : list Z :=
  match l with
  | [] => [x]
  | y :: l' => if (x <=? y)%Z then x :: l else y :: insert x l'
  end.

(** The values in increasing order. *)
Fixpoint sort (l : list Z) : list Z :=
  match l with
  | [] => []
  | x :: l' => insert x (sort l')
  end.

(** [int(np.median(xs))] for integers [xs]: the middle value of the
    sorted values, or the mean of the two middle ones, truncated; on no
    value at all the median is NaN and [int] raises. *)
Definition median_int (xs : list Z) : result Z :=
  let s := sort xs in
  let n := List.length s in
  match n with
  | O => Raise ValueError
  | _ =>
      if Nat.odd n then Ok (nth (n / 2) s 0%Z)
      else Ok (Z.quot (nth (n / 2 - 1) s 0%Z + nth (n / 2) s 0%Z) 2)
  end.

Definition red (p : Z * Z * Z) : Z := let '(r, _, _) := p in r.
Definition green (p : Z * Z * Z) : Z := let '(_, g, _) := p in g.
Definition blue (p : Z * Z * Z) : Z := let '(_, _, b) := p in b.

(** The two pixels have the same colour. *)
Definition same_pixel (p q : Z * Z * Z) : bool :=
  (red p =? red q)%Z && (green p =? green q)%Z && (blue p =? blue q)%Z.

(** How many pixels of [arr] have the colour [c]. *)
Definition count_pixels (c : Z * Z * Z) (arr : list (Z * Z * Z)) : nat :=
  List.length (filter (same_pixel c) arr).

Definition sample_color (image : Image) : result (Z * Z * Z) :=
  let box := SwatchSampler.sample_box (width image) (height image) in
  let arr := region_pixels image box in
  r <- median_int (map red arr) ;;
  g <- median_int (map green arr) ;;
  b <- median_int (map blue arr) ;;
  Ok (r, g, b).

(** Longest prefix of capitals, and what follows it. *)
Fixpoint span_upper (s : string) : string * string :=
  match s with
  | EmptyString => (EmptyString, EmptyString)
  | String c s' =>
      if is_upper c
      then let (u, r) := span_upper s' in (String c u, r)
      else (EmptyString, s)
  end.

Definition between_1_and_3 (n : nat) : bool := (1 <=? n)%nat && (n <=? 3)%nat.

(** [\.jpg$] against the whole of [r]. *)
Definition jpg_dollar (r : string) : bool :=
  String.eqb r ".jpg" || String.eqb r (".jpg" ++ String newline "").

(** [color_file_pattern.match(name)] for
    [re.compile(r'^[A-Z]{1,3}[0-9]{1,3}\.jpg$')]. *)
Definition color_file_pattern (name : string) : bool :=
  let (letters, r) := span_upper name in
  let (digits, r') := span_digits r in
  between_1_and_3 (String.length letters)
  && between_1_and_3 (String.length digits)
  && jpg_dollar r'.

(** One to three capitals, then [lo] to [hi] digits. *)
Definition code_shape (lo hi : nat) (k : string) : Prop :=
  exists u d : string,
    k = (u ++ d)%string /\ all_upper u = true /\
    1 <= String.length u <= 3 /\ all_digits d = true /\
    lo <= String.length d <= hi.

(** [name.rpartition('.')]: what stands before and after the last dot. *)
Fixpoint rsplit_dot (s : string) : option (string * string) :=
  match s with
  | EmptyString => None
  | String c s' =>
      match rsplit_dot s' with
      | Some (a, b) => Some (String c a, b)
      | None => if Ascii.eqb c "."%char then Some (EmptyString, s') else None
      end
  end.

(** [Path(name).stem] *)
Definition stem (name : string) : string :=
  match rsplit_dot name with
  | Some (String c a, String d b) => String c a
  | _ => name
  end.

(** A [*.jpg] file of the keycaps directory: its name, and the image
    that [Image.open] yields, or [None] when it raises. *)
Definition KeycapFile : Type := (string * option Image)%type.

(** The body of the loop of [main]. *)
Definition build_step (registry : PyDict.dict ColorEntry) (f : KeycapFile)
  : PyDict.dict ColorEntry :=
  let (name, opened) := f in
  if negb (color_file_pattern name) then registry
  else
    let color_code := stem name in
    match opened with
    | None => registry
    | Some img =>
        match sample_color img with
        | Ok (r, g, b) =>
            PyDict.set color_code
              {| file := ("yuzu/keycaps/" ++ name)%string; rgb := [r; g; b] |}
              registry
        | Raise _ => registry
        end
    end.

(** The registry that [main] dumps, from the [*.jpg] files of the keycaps
    directory in sorted order. *)
Definition build_color_registry (files : list KeycapFile)
  : PyDict.dict ColorEntry :=
  fold_left build_step files PyDict.empty.

End ColorRegistryBuild.

(* ================================================================== *)
(** ** build_key_position_registry.py: vocabulary for its properties *)

Module Layout.

(** [elem.find("rect")] is not [None]. *)
Definition has_rect (elem : Geometry.KeyElem) : bool :=
  match Geometry.rect elem with
  | Some _ => true
  | None => false
  end.

(** A character of a numeric token: a digit, the point or the minus
    sign. *)
Definition token_char (c : ascii) : bool :=
  is_digit c || Ascii.eqb c "."%char || Ascii.eqb c "-"%char.

Fixpoint all_token_chars (s : string) : bool :=
  match s with
  | EmptyString => true
  | String c s' => token_char c && all_token_chars s'
  end.

(** A key element of the layout document with a 19.05 mm square
    [<rect>], or with none: the shape of the keys of the sample layout. *)
Definition sample_key (id x y : string) (with_rect : bool)
  : Geometry.KeyElem :=
  {| Geometry.data_key_id := id;
     Geometry.data_key_x := Some x; Geometry.data_key_y := Some y;
     Geometry.data_key_labelid := None;
     Geometry.rect :=
       if with_rect
       then Some {| Geometry.rect_width := Some "19.05";
                    Geometry.rect_height := Some "19.05" |}
       else None |}.

End Layout.

(* ================================================================== *)
(** ** build_key_name_registry.py *)

Module KeyNames.

(** A value of the name registry: one keycode, or the list of the
    keycodes that share the name. *)
Inductive NameValue : Type :=
| One (keycode : string)
| Many (keycodes : list string).

(** [data.get('label', '')] is truthy. *)
Definition truthy_label (data : Geometry.KeyEntry) : option string :=
  match Geometry.label data with
  | Some EmptyString => None
  | Some key_name => Some key_name
  | None => None
  end.

(** The keycodes of the keys that carry the name [key_name], in the order
    of the registry. *)
Definition keycodes_named (key_name : string)
           (key_registry : list (string * Geometry.KeyEntry)) : list string :=
  map fst
      (filter (fun kv => match truthy_label (snd kv) with
                         | Some m => String.eqb m key_name
                         | None => false
                         end)
              key_registry).

(** [duplicate_check[key_name].append(keycode)] on a
    [defaultdict(list)]. *)
Definition append_to (key_name keycode : string)
           (duplicate_check : PyDict.dict (list string))
  : PyDict.dict (list string) :=
  let old := match PyDict.get key_name duplicate_check with
             | Some keycodes => keycodes
             | None => []
             end in
  PyDict.set key_name (old ++ [keycode]) duplicate_check.

(** The first loop. *)
Definition check_step (duplicate_check : PyDict.dict (list string))
           (item : string * Geometry.KeyEntry) : PyDict.dict (list string) :=
  let (keycode, data) := item in
  match truthy_label data with
  | Some key_name => append_to key_name keycode duplicate_check
  | None => duplicate_check
  end.

Definition duplicate_check_of (key_registry : PyDict.dict Geometry.KeyEntry)
  : PyDict.dict (list string) :=
  fold_left check_step (PyDict.items key_registry) PyDict.empty.

(** The second loop. *)
Definition name_step (name_registry : PyDict.dict NameValue)
           (item : string * list string) : PyDict.dict NameValue :=
  let (key_name, keycodes) := item in
  match keycodes with
  | [keycode] => PyDict.set key_name (One keycode) name_registry
  | _ => PyDict.set key_name (Many keycodes) name_registry
  end.

(** The dictionary that [build_key_name_registry] dumps. *)
Definition build_key_name_registry (key_registry : PyDict.dict Geometry.KeyEntry)
  : PyDict.dict NameValue :=
  fold_left name_step (PyDict.items (duplicate_check_of key_registry))
            PyDict.empty.

(** The value that the second loop stores for the keycodes of a name. *)
Definition name_value (keycodes : list string) : NameValue :=
  match keycodes with
  | [keycode] => One keycode
  | _ => Many keycodes
  end.

(** What [duplicate_check] holds under a name that held [old], once the
    keycodes [ks] have been appended to it. *)
Definition merged (old : option (list string)) (ks : list string)
  : option (list string) :=
  match old, ks with
  | Some l, _ => Some (l ++ ks)
  | None, [] => None
  | None, _ => Some ks
  end.

(** The names reported as duplicates. *)
Definition duplicates (key_registry : PyDict.dict Geometry.KeyEntry)
  : PyDict.dict (list string) :=
  filter (fun kv => (1 <? List.length (snd kv))%nat)
         (PyDict.items (duplicate_check_of key_registry)).

End KeyNames.

(* ================================================================== *)
(** * Properties *)

(** ** Characters and digit runs *)

Lemma is_digit_cases (c : ascii) :
  is_digit c = true ->
  In c ["0"; "1"; "2"; "3"; "4"; "5"; "6"; "7"; "8"; "9"]%char.
Proof.
  destruct c as [[] [] [] [] [] [] [] []]; intro H;
    try discriminate H; simpl; tauto.
Qed.

Lemma digit_not_upper (c : ascii) : is_digit c = true -> is_upper c = false.
Proof.
  intro H. apply is_digit_cases in H. simpl in H.
  repeat (destruct H as [<- | H]; [reflexivity |]). contradiction.
Qed.

Lemma digit_not_newline (c : ascii) :
  is_digit c = true -> Ascii.eqb c newline = false.
Proof.
  intro H. apply is_digit_cases in H. simpl in H.
  repeat (destruct H as [<- | H]; [reflexivity |]). contradiction.
Qed.

Lemma digit_not_I (c : ascii) : is_digit c = true -> Ascii.eqb c "I" = false.
Proof.
  intro H. apply is_digit_cases in H. simpl in H.
  repeat (destruct H as [<- | H]; [reflexivity |]). contradiction.
Qed.

Lemma all_digits_app (d e : string) :
  all_digits (d ++ e) = all_digits d && all_digits e.
Proof.
  induction d as [| c d IH]; simpl; [reflexivity |].
  rewrite IH. apply andb_assoc.
Qed.

Lemma length_app (s r : string) :
  String.length (s ++ r) = String.length s + String.length r.
Proof. induction s as [| c s IH]; simpl; [reflexivity | now rewrite IH]. Qed.

Lemma append_empty_r (s : string) : (s ++ "")%string = s.
Proof. induction s as [| c s IH]; simpl; [reflexivity | now rewrite IH]. Qed.

Lemma append_assoc (s r u : string) :
  ((s ++ r) ++ u)%string = (s ++ r ++ u)%string.
Proof. induction s as [| c s IH]; simpl; [reflexivity | now rewrite IH]. Qed.

(** [span_digits] splits its argument, the first part is a digit run and
    the second does not start with a digit. *)
Lemma span_digits_spec (s d r : string) :
  span_digits s = (d, r) ->
  s = (d ++ r)%string /\ all_digits d = true /\
  match r with String c _ => is_digit c = false | EmptyString => True end.
Proof.
  revert d r. induction s as [| c s IH]; simpl; intros d r H.
  - inversion H; subst. auto.
  - destruct (is_digit c) eqn:Hc.
    + destruct (span_digits s) as [d' r'] eqn:Hs. inversion H; subst.
      destruct (IH d' r eq_refl) as (-> & Hd & Hr).
      simpl. rewrite Hc, Hd. auto.
    + inversion H; subst. simpl. rewrite Hc. auto.
Qed.

Lemma span_digits_run (d r : string) :
  all_digits d = true ->
  match r with String c _ => is_digit c = false | EmptyString => True end ->
  span_digits (d ++ r) = (d, r).
Proof.
  intros Hd Hr. induction d as [| c d IH]; simpl in *.
  - destruct r as [| c r]; [reflexivity |]. simpl. now rewrite Hr.
  - apply andb_true_iff in Hd as [Hc Hd]. rewrite Hc, (IH Hd). reflexivity.
Qed.

(** ** fix_color_registry_codes.py: the two patterns *)

Module CodeFacts.
Import CodeNormalizer.

Lemma digits_dollar_inv (s d : string) :
  digits_dollar s = Some d ->
  d <> EmptyString /\ all_digits d = true /\
  (s = d \/ s = (d ++ String newline "")%string).
Proof.
  unfold digits_dollar. destruct (span_digits s) as [d' r] eqn:Hs.
  apply span_digits_spec in Hs as (-> & Hd & _).
  destruct d' as [| c d']; [discriminate |].
  destruct (at_dollar r) eqn:Hr; [| discriminate].
  intro H; inversion H; subst. split; [discriminate |]. split; [exact Hd |].
  destruct r as [| n [| ? ?]]; simpl in Hr; try discriminate.
  - left. now rewrite append_empty_r.
  - right. apply Ascii.eqb_eq in Hr. now subst.
Qed.

Lemma digits_dollar_run (d : string) :
  all_digits d = true -> d <> EmptyString -> digits_dollar d = Some d.
Proof.
  intros Hd Hne. unfold digits_dollar.
  rewrite <- (append_empty_r d) at 1.
  rewrite (span_digits_run d "" Hd I).
  destruct d; [contradiction | reflexivity].
Qed.

Lemma CODE_RE_inv (s p d : string) :
  CODE_RE s = Some (p, d) ->
  exists a b,
    p = String a (String b "") /\ is_upper a = true /\ is_upper b = true /\
    d <> EmptyString /\ all_digits d = true /\
    (s = (p ++ d)%string \/ s = (p ++ d ++ String newline "")%string).
Proof.
  unfold CODE_RE. destruct s as [| a [| b rest]]; try discriminate.
  destruct (is_upper a) eqn:Ha; [| discriminate].
  destruct (is_upper b) eqn:Hb; [| discriminate]. simpl.
  destruct (digits_dollar rest) as [d' |] eqn:Hd; [| discriminate].
  intro H; inversion H; subst.
  apply digits_dollar_inv in Hd as (Hne & Hall & Hs).
  exists a, b. repeat split; auto.
  destruct Hs as [-> | ->]; simpl; auto.
Qed.

Lemma CODE_RE_run (a b : ascii) (d : string) :
  is_upper a = true -> is_upper b = true ->
  all_digits d = true -> d <> EmptyString ->
  CODE_RE (String a (String b d)) = Some (String a (String b ""), d).
Proof.
  intros Ha Hb Hd Hne. unfold CODE_RE.
  now rewrite Ha, Hb, (digits_dollar_run d Hd Hne).
Qed.

Lemma I_MIS_OCR_RE_inv (s p d : string) :
  I_MIS_OCR_RE s = Some (p, d) ->
  exists a b,
    p = String a (String b "") /\ is_upper a = true /\ is_upper b = true /\
    d <> EmptyString /\ all_digits d = true /\
    (s = (p ++ "I" ++ d)%string \/
     s = (p ++ "I" ++ d ++ String newline "")%string).
Proof.
  unfold I_MIS_OCR_RE. destruct s as [| a [| b [| i rest]]]; try discriminate.
  destruct (is_upper a) eqn:Ha; [| discriminate].
  destruct (is_upper b) eqn:Hb; [| discriminate]. simpl.
  destruct (Ascii.eqb i "I") eqn:Hi; [| discriminate].
  apply Ascii.eqb_eq in Hi; subst i.
  destruct (digits_dollar rest) as [d' |] eqn:Hd; [| discriminate].
  intro H; inversion H; subst.
  apply digits_dollar_inv in Hd as (Hne & Hall & Hs).
  exists a, b. repeat split; auto.
  destruct Hs as [-> | ->]; simpl; auto.
Qed.

Lemma CODE_RE_second (a b : ascii) (r : string) :
  is_upper b = false -> CODE_RE (String a (String b r)) = None.
Proof. intro Hb. unfold CODE_RE. now rewrite Hb, andb_false_r. Qed.

Lemma CODE_RE_third (a b c : ascii) (r : string) :
  is_digit c = false -> CODE_RE (String a (String b (String c r))) = None.
Proof.
  intro Hc. unfold CODE_RE, digits_dollar. simpl. rewrite Hc.
  now destruct (is_upper a && is_upper b).
Qed.

Lemma I_MIS_OCR_RE_second (a b : ascii) (r : string) :
  is_upper b = false -> I_MIS_OCR_RE (String a (String b r)) = None.
Proof.
  intro Hb. unfold I_MIS_OCR_RE. destruct r; [reflexivity |].
  now rewrite Hb, andb_false_r.
Qed.

Lemma I_MIS_OCR_RE_third (a b c : ascii) (r : string) :
  Ascii.eqb c "I" = false ->
  I_MIS_OCR_RE (String a (String b (String c r))) = None.
Proof. intro Hc. unfold I_MIS_OCR_RE. now rewrite Hc, andb_false_r. Qed.

(** A code whose third character is a digit is no mis-read code. *)
Lemma I_MIS_OCR_RE_digits (a b : ascii) (d : string) :
  all_digits d = true -> I_MIS_OCR_RE (String a (String b d)) = None.
Proof.
  intro Hd. unfold I_MIS_OCR_RE. destruct d as [| c d]; [reflexivity |].
  simpl in Hd. apply andb_true_iff in Hd as [Hc _].
  rewrite (digit_not_I c Hc), andb_false_r. reflexivity.
Qed.

(** [f"{int(d):03d}"] on one or two digits is [d] left-padded with
    zeros to three characters. *)
Lemma format_03d_int (d : string) :
  all_digits d = true -> d <> EmptyString -> String.length d < 3 ->
  format_03d (int d) = zfill 3 d.
Proof.
  intros Hd Hne Hlen.
  destruct d as [| c1 [| c2 [| c3 d]]]; simpl in Hlen;
    [contradiction | | | lia].
  - simpl in Hd. rewrite andb_true_r in Hd.
    apply is_digit_cases in Hd. simpl in Hd.
    repeat (destruct Hd as [<- | Hd]; [reflexivity |]). contradiction.
  - simpl in Hd. rewrite andb_true_r in Hd.
    apply andb_true_iff in Hd as [H1 H2].
    apply is_digit_cases in H1, H2. simpl in H1, H2.
    repeat (destruct H1 as [<- | H1];
            [repeat (destruct H2 as [<- | H2]; [reflexivity |]);
             contradiction |]).
    contradiction.
Qed.

Lemma zfill_long (w : nat) (s : string) :
  w <= String.length s -> zfill w s = s.
Proof.
  intro H. unfold zfill. replace (w - String.length s) with 0 by lia.
  reflexivity.
Qed.

Lemma zfill_all_digits (w : nat) (d : string) :
  all_digits d = true -> all_digits (zfill w d) = true.
Proof.
  intro Hd. unfold zfill. rewrite all_digits_app, Hd, andb_true_r.
  induction (w - String.length d); simpl; auto.
Qed.

Lemma length_zeros (n : nat) : String.length (zeros n) = n.
Proof. induction n; simpl; auto. Qed.

Lemma zfill_length (w : nat) (d : string) : w <= String.length (zfill w d).
Proof. unfold zfill. rewrite length_app, length_zeros. lia. Qed.

(** Two capitals and a digit run: the run is padded to three digits. *)
Lemma normalize_code_two_letters (a b : ascii) (d : string) :
  is_upper a = true -> is_upper b = true ->
  all_digits d = true -> d <> EmptyString ->
  normalize_code (String a (String b d)) = String a (String b (zfill 3 d)).
Proof.
  intros Ha Hb Hd Hne. unfold normalize_code.
  rewrite (I_MIS_OCR_RE_digits a b d Hd), (CODE_RE_run a b d Ha Hb Hd Hne).
  destruct (3 <=? String.length d)%nat eqn:Hlen.
  - apply Nat.leb_le in Hlen. now rewrite zfill_long.
  - apply Nat.leb_gt in Hlen. now rewrite (format_03d_int d Hd Hne Hlen).
Qed.

(** Two capitals and at least three digits: a fixed point. *)
Lemma normalize_code_canonical (a b : ascii) (d : string) :
  is_upper a = true -> is_upper b = true ->
  all_digits d = true -> 3 <= String.length d ->
  normalize_code (String a (String b d)) = String a (String b d).
Proof.
  intros Ha Hb Hd Hlen.
  rewrite normalize_code_two_letters; auto.
  - now rewrite zfill_long.
  - destruct d; [simpl in Hlen; lia | discriminate].
Qed.

End CodeFacts.

(** ** fix_color_registry_codes.py: [normalize_code] *)

Section NormalizeCode.
Import CodeNormalizer CodeFacts.

(** Every result of [normalize_code] is either its argument or two
    capitals followed by at least three digits. *)
Lemma normalize_code_shape (s : string) :
  normalize_code s = s \/
  exists a b d,
    is_upper a = true /\ is_upper b = true /\ all_digits d = true /\
    3 <= String.length d /\ normalize_code s = String a (String b d).
Proof.
  unfold normalize_code.
  destruct (I_MIS_OCR_RE s) as [[p d] |] eqn:HI.
  - right.
    apply I_MIS_OCR_RE_inv in HI as (a & b & -> & Ha & Hb & Hne & Hd & _).
    assert (Hd1 : all_digits (String "1" d) = true) by (simpl; exact Hd).
    change (String a (String b "") ++ "1" ++ d)%string
      with (String a (String b (String "1" d))).
    rewrite (CODE_RE_run a b (String "1" d) Ha Hb Hd1) by discriminate.
    destruct (3 <=? String.length (String "1" d))%nat eqn:Hlen.
    + apply Nat.leb_le in Hlen. exists a, b, (String "1" d). auto.
    + apply Nat.leb_gt in Hlen.
      rewrite (format_03d_int _ Hd1) by (discriminate || exact Hlen).
      exists a, b, (zfill 3 (String "1" d)).
      repeat split; auto using zfill_all_digits, zfill_length.
  - destruct (CODE_RE s) as [[p d] |] eqn:HC; [| now left].
    destruct (3 <=? String.length d)%nat eqn:Hlen; [now left |].
    right. apply Nat.leb_gt in Hlen.
    apply CODE_RE_inv in HC as (a & b & -> & Ha & Hb & Hne & Hd & _).
    rewrite (format_03d_int d Hd Hne Hlen).
    exists a, b, (zfill 3 d).
    repeat split; auto using zfill_all_digits, zfill_length.
Qed.

(** C2. Code normalisation is idempotent: on every string, normalising
    the result of [normalize_code] again changes nothing. *)
Theorem normalize_code_idempotent (s : string) :
  normalize_code (normalize_code s) = normalize_code s.
Proof.
  destruct (normalize_code_shape s)
    as [H | (a & b & d & Ha & Hb & Hd & Hlen & ->)].
  - congruence.
  - now apply normalize_code_canonical.
Qed.

(** C7, as the code has it. For a code made of capitals [p] followed by
    a non-empty digit run [d]: when [p] has exactly two letters the run
    is left-padded with zeros to three digits (a run of three or more
    digits is kept); when [p] has one letter, or three letters the last
    of which is not [I], the code is returned unchanged. *)
Theorem normalize_code_pads_two_letter_prefix (p d : string) :
  all_upper p = true -> all_digits d = true -> d <> EmptyString ->
  (String.length p = 2 ->
     normalize_code (p ++ d) = (p ++ zeros (3 - String.length d) ++ d)%string)
  /\ (String.length p = 1 -> normalize_code (p ++ d) = (p ++ d)%string)
  /\ (String.length p = 3 -> String.get 2 p <> Some "I"%char ->
      normalize_code (p ++ d) = (p ++ d)%string).
Proof.
  intros Hp Hd Hne. repeat split.
  - intro Hlen. destruct p as [| a [| b [| c p]]]; try discriminate Hlen.
    simpl in Hp. rewrite andb_true_r in Hp.
    apply andb_true_iff in Hp as [Ha Hb]. simpl.
    now apply normalize_code_two_letters.
  - intro Hlen. destruct p as [| a [| b p]]; try discriminate Hlen.
    destruct d as [| c d]; [contradiction |].
    simpl in Hd. apply andb_true_iff in Hd as [Hc Hd].
    apply digit_not_upper in Hc. simpl. unfold normalize_code.
    rewrite (I_MIS_OCR_RE_second a c d Hc), (CODE_RE_second a c d Hc).
    reflexivity.
  - intros Hlen Hthird.
    destruct p as [| a [| b [| c [| e p]]]]; try discriminate Hlen.
    simpl in Hp. rewrite andb_true_r in Hp.
    apply andb_true_iff in Hp as [Ha Hp].
    apply andb_true_iff in Hp as [Hb Hc].
    simpl in Hthird. simpl. unfold normalize_code.
    assert (HcI : Ascii.eqb c "I" = false).
    { apply Ascii.eqb_neq. congruence. }
    assert (Hnd : is_digit c = false).
    { destruct (is_digit c) eqn:E; [| reflexivity].
      apply digit_not_upper in E. congruence. }
    rewrite (I_MIS_OCR_RE_third a b c d HcI), (CODE_RE_third a b c d Hnd).
    reflexivity.
Qed.

Lemma normalize_code_pads_two_letter_prefix_witness :
  normalize_code "GR27" = "GR027" /\ normalize_code "A5" = "A5"
  /\ normalize_code "ABC5" = "ABC5".
Proof.
  destruct (normalize_code_pads_two_letter_prefix "GR" "27"
              eq_refl eq_refl ltac:(discriminate)) as (H2 & _ & _).
  destruct (normalize_code_pads_two_letter_prefix "A" "5"
              eq_refl eq_refl ltac:(discriminate)) as (_ & H1 & _).
  destruct (normalize_code_pads_two_letter_prefix "ABC" "5"
              eq_refl eq_refl ltac:(discriminate)) as (_ & _ & H3).
  split; [exact (H2 eq_refl) |].
  split; [exact (H1 eq_refl) |].
  apply (H3 eq_refl). simpl. discriminate.
Defined.

(** C7, as the spec has it, fails: a one-letter code with a one-digit
    run, and a three-letter one, match the family "one to three capitals,
    then digits" and are not padded. *)
Lemma normalize_code_one_letter_not_padded :
  all_upper "A" = true /\ all_digits "5" = true
  /\ normalize_code ("A" ++ "5") = "A5"
  /\ normalize_code ("A" ++ "5") <> ("A" ++ zfill 3 "5")%string
  /\ all_upper "ABC" = true
  /\ normalize_code ("ABC" ++ "5") <> ("ABC" ++ zfill 3 "5")%string.
Proof. repeat split; discriminate. Qed.

End NormalizeCode.

(** ** Dictionaries *)

Module PyDictFacts.
Section Facts.
Context {V : Type}.
Implicit Types (d : PyDict.dict V) (k : string) (v : V).

Lemma get_set_same k v d : PyDict.get k (PyDict.set k v d) = Some v.
Proof.
induction d as [| [k' v'] d IH]; simpl.
- now rewrite String.eqb_refl.
- destruct (String.eqb k k') eqn:E; simpl; rewrite E; auto.
Qed.

Lemma get_set_other k k' v d :
k <> k' -> PyDict.get k' (PyDict.set k v d) = PyDict.get k' d.
Proof.
intro Hne. induction d as [| [k0 v0] d IH]; simpl.
- apply String.eqb_neq in Hne. rewrite String.eqb_sym in Hne.
  now rewrite Hne.
- destruct (String.eqb k k0) eqn:E; simpl.
  + apply String.eqb_eq in E. subst k0.
    apply String.eqb_neq in Hne. rewrite String.eqb_sym in Hne.
    now rewrite Hne.
  + now rewrite IH.
Qed.

Lemma mem_false_iff k d : PyDict.mem k d = false <-> ~ In k (PyDict.keys d).
Proof.
unfold PyDict.mem. induction d as [| [k' v'] d IH]; simpl.
- tauto.
- destruct (String.eqb k k') eqn:E.
  + apply String.eqb_eq in E. subst. split; [discriminate | tauto].
  + apply String.eqb_neq in E. rewrite IH. split.
    * intros H [H' | H']; [congruence | tauto].
    * tauto.
Qed.

Lemma mem_true_iff k d : PyDict.mem k d = true <-> In k (PyDict.keys d).
Proof.
destruct (PyDict.mem k d) eqn:E.
- split; [intros _ | reflexivity].
  destruct (in_dec string_dec k (PyDict.keys d)) as [H | H]; [exact H |].
  apply mem_false_iff in H. congruence.
- apply mem_false_iff in E. split; [discriminate | tauto].
Qed.

(** Assignment keeps the keys and their order when the key is present,
  and appends the key when it is new. *)
Lemma keys_set k v d :
PyDict.keys (PyDict.set k v d) =
if PyDict.mem k d then PyDict.keys d else PyDict.keys d ++ [k].
Proof.
unfold PyDict.mem. induction d as [| [k' v'] d IH]; simpl.
- reflexivity.
- destruct (String.eqb k k') eqn:E; simpl.
  + reflexivity.
  + rewrite IH. now destruct (PyDict.get k d).
Qed.

Lemma keys_set_new k v d :
~ In k (PyDict.keys d) ->
PyDict.keys (PyDict.set k v d) = PyDict.keys d ++ [k].
Proof. intro H. apply mem_false_iff in H. now rewrite keys_set, H. Qed.

Lemma wf_set k v d : PyDict.wf d -> PyDict.wf (PyDict.set k v d).
Proof.
unfold PyDict.wf. intro H. rewrite keys_set.
destruct (PyDict.mem k d) eqn:E; [exact H |].
apply mem_false_iff in E.
apply NoDup_rev in H. rewrite <- (rev_involutive (_ ++ _)).
apply NoDup_rev. rewrite rev_app_distr. simpl. constructor; [| exact H].
now rewrite <- in_rev.
Qed.

Lemma set_new k v d :
  ~ In k (PyDict.keys d) -> PyDict.set k v d = d ++ [(k, v)].
Proof.
  induction d as [| [k' v'] d IH]; simpl; intro H; [reflexivity |].
  destruct (String.eqb k k') eqn:E.
  - apply String.eqb_eq in E. subst. tauto.
  - rewrite IH by tauto. reflexivity.
Qed.

Lemma in_set k v d kv :
In kv (PyDict.set k v d) -> kv = (k, v) \/ In kv d.
Proof.
induction d as [| [k' v'] d IH]; simpl.
- intros [<- | []]. now left.
- destruct (String.eqb k k') eqn:E; simpl.
  + apply String.eqb_eq in E. subst. intros [<- | H]; auto.
  + intros [<- | H]; auto. destruct (IH H); auto.
Qed.

Lemma length_set k v d :
List.length (PyDict.set k v d) =
if PyDict.mem k d then List.length d else S (List.length d).
Proof.
unfold PyDict.mem. induction d as [| [k' v'] d IH]; simpl.
- reflexivity.
- destruct (String.eqb k k') eqn:E; simpl.
  + reflexivity.
  + rewrite IH. now destruct (PyDict.get k d).
Qed.
End Facts.
End PyDictFacts.

(** ** fix_color_registry_codes.py: the loop of [main] *)

Section FixRegistry.
Import CodeNormalizer PyDictFacts.
Implicit Types (st : fix_state) (l : list (string * ColorEntry)).

Lemma fix_registry_app l1 l2 :
  fix_registry (l1 ++ l2) = fold_left fix_step l2 (fix_registry l1).
Proof. unfold fix_registry, PyDict.items. apply fold_left_app. Qed.

(** A code present in [remapped] keeps its value to the end of the loop. *)
Lemma fix_step_get st item c v :
  PyDict.get c (remapped st) = Some v ->
  PyDict.get c (remapped (fix_step st item)) = Some v.
Proof.
  intro H. destruct item as [code entry]. unfold fix_step.
  destruct (PyDict.mem (normalize_code code) (remapped st)) eqn:E; simpl.
  - exact H.
  - rewrite get_set_other; [exact H |].
    intro Heq. subst c. unfold PyDict.mem in E. now rewrite H in E.
Qed.

Lemma fix_loop_get l st c v :
  PyDict.get c (remapped st) = Some v ->
  PyDict.get c (remapped (fold_left fix_step l st)) = Some v.
Proof.
  revert st. induction l as [| item l IH]; simpl; intros st H; [exact H |].
  apply IH. now apply fix_step_get.
Qed.

Lemma fix_step_warned st item w :
  In w (warned st) -> In w (warned (fix_step st item)).
Proof.
  intro H. destruct item as [code entry]. unfold fix_step.
  destruct (PyDict.mem _ _); simpl; [apply in_or_app |]; auto.
Qed.

Lemma fix_loop_warned l st w :
  In w (warned st) -> In w (warned (fold_left fix_step l st)).
Proof.
  revert st. induction l as [| item l IH]; simpl; intros st H; [exact H |].
  apply IH. now apply fix_step_warned.
Qed.

(** Every pair in [remapped] was there before the loop, or is the value of
    an entry the loop went through, under that entry's normalised code. *)
Lemma fix_loop_in l st k v :
  In (k, v) (remapped (fold_left fix_step l st)) ->
  In (k, v) (remapped st) \/
  exists k0, In (k0, v) l /\ k = normalize_code k0.
Proof.
  revert st. induction l as [| [code entry] l IH]; simpl; intros st H.
  - now left.
  - destruct (IH _ H) as [H1 | (k0 & Hin & ->)].
    + unfold fix_step in H1.
      destruct (PyDict.mem _ _); simpl in H1; [now left |].
      apply in_set in H1 as [H1 | H1]; [| now left].
      inversion H1; subst. right. exists code. auto.
    + right. exists k0. auto.
Qed.

Lemma fix_loop_wf l st :
  PyDict.wf (remapped st) -> PyDict.wf (remapped (fold_left fix_step l st)).
Proof.
  revert st. induction l as [| [code entry] l IH]; simpl; intros st H;
    [exact H |].
  apply IH. unfold fix_step. destruct (PyDict.mem _ _); simpl; [exact H |].
  now apply wf_set.
Qed.

(** One warning for every entry dropped: an entry is either stored or
    reported. *)
Lemma fix_loop_count l st :
  List.length (remapped (fold_left fix_step l st))
  + List.length (warned (fold_left fix_step l st))
  = List.length (remapped st) + List.length (warned st) + List.length l.
Proof.
  revert st. induction l as [| [code entry] l IH]; simpl; intros st; [lia |].
  rewrite IH. unfold fix_step.
  destruct (PyDict.mem (normalize_code code) (remapped st)) eqn:E; simpl.
  - rewrite List.length_app. simpl. lia.
  - rewrite length_set, E. lia.
Qed.

(** C5. When two entries of the registry normalise to the same code, the
    value kept under that code is the value of the first entry of the
    registry that normalises to it, the later entry is reported with a
    warning naming its raw and normalised code, and the code occurs once in
    the result. The witness below is the registry with the raw codes
    [GR27] and [GR027], in that order. *)
Theorem fix_registry_keeps_first l1 l2 l3 (k1 k2 : string) (v1 v2 : ColorEntry) :
  normalize_code k1 = normalize_code k2 ->
  (forall k, In k (PyDict.keys l1) -> normalize_code k <> normalize_code k1) ->
  let st := fix_registry (l1 ++ (k1, v1) :: l2 ++ (k2, v2) :: l3) in
  PyDict.get (normalize_code k1) (remapped st) = Some v1
  /\ In (k2, normalize_code k2) (warned st)
  /\ PyDict.wf (remapped st)
  /\ List.length (remapped st) + List.length (warned st)
     = List.length (l1 ++ (k1, v1) :: l2 ++ (k2, v2) :: l3).
Proof.
  intros Hsame Hfirst st.
  assert (H1 : PyDict.get (normalize_code k1)
                 (remapped (fix_registry (l1 ++ [(k1, v1)]))) = Some v1).
  { rewrite fix_registry_app. simpl. unfold fix_step.
    destruct (PyDict.mem (normalize_code k1) (remapped (fix_registry l1)))
      eqn:E; simpl.
    - exfalso. apply mem_true_iff in E. apply in_map_iff in E.
      destruct E as ([k v] & Hk & Hin). simpl in Hk.
      apply fix_loop_in in Hin as [[] | (k0 & Hin & ->)].
      apply (Hfirst k0); [| now symmetry].
      apply in_map_iff. exists (k0, v). auto.
    - apply get_set_same. }
  assert (H2 : PyDict.get (normalize_code k1)
                 (remapped (fix_registry ((l1 ++ [(k1, v1)]) ++ l2)))
               = Some v1).
  { rewrite fix_registry_app. now apply fix_loop_get. }
  assert (Hst : st = fold_left fix_step l3
                  (fix_step (fix_registry ((l1 ++ [(k1, v1)]) ++ l2))
                            (k2, v2))).
  { unfold st.
    replace (l1 ++ (k1, v1) :: l2 ++ (k2, v2) :: l3)
      with (((l1 ++ [(k1, v1)]) ++ l2) ++ (k2, v2) :: l3)
      by (rewrite <- !app_assoc; reflexivity).
    now rewrite fix_registry_app. }
  repeat split.
  - rewrite Hst. now apply fix_loop_get, fix_step_get.
  - rewrite Hst. apply fix_loop_warned. unfold fix_step.
    rewrite <- Hsame. unfold PyDict.mem. rewrite H2. simpl.
    apply in_or_app. right. now left.
  - unfold st, fix_registry. apply fix_loop_wf. constructor.
  - unfold st, fix_registry. rewrite fix_loop_count. reflexivity.
Qed.

Lemma fix_registry_keeps_first_witness :
  let e1 := {| file := "yuzu/keycaps/GR27.jpg"; rgb := [10; 20; 30]%Z |} in
  let e2 := {| file := "yuzu/keycaps/GR027.jpg"; rgb := [40; 50; 60]%Z |} in
  let st := fix_registry [("GR27", e1); ("GR027", e2)] in
  remapped st = [("GR027", e1)]
  /\ warned st = [("GR027", "GR027")]
  /\ PyDict.get "GR027" (remapped st) = Some e1
  /\ In ("GR027", "GR027") (warned st).
Proof.
  intros e1 e2 st.
  split; [reflexivity |]. split; [reflexivity |].
  destruct (fix_registry_keeps_first [] [] [] "GR27" "GR027" e1 e2 eq_refl)
    as (Hget & Hwarn & _).
  - intros k [].
  - split; [exact Hget | exact Hwarn].
Defined.

(** C10. Normalising the registry never alters a value: every pair of the
    result holds the value (file and rgb alike) of an entry of the input
    registry, stored under the normalised code of that entry. *)
Theorem fix_registry_values_unchanged (registry : PyDict.dict ColorEntry)
        (k : string) (v : ColorEntry) :
  In (k, v) (PyDict.items (remapped (fix_registry registry))) ->
  exists k0, In (k0, v) (PyDict.items registry) /\ k = normalize_code k0.
Proof.
  intro H. apply fix_loop_in in H as [[] | H]. exact H.
Qed.

Lemma fix_registry_values_unchanged_witness :
  let e := {| file := "yuzu/keycaps/GR27.jpg"; rgb := [10; 20; 30]%Z |} in
  exists k0, In (k0, e) [("GR27", e)] /\ "GR027" = normalize_code k0.
Proof.
  intro e.
  apply (fix_registry_values_unchanged [("GR27", e)] "GR027" e).
  simpl. left. reflexivity.
Defined.

End FixRegistry.

(** ** build_color_registry.py: the sampling box *)

Section SampleBox.
Import SwatchSampler.
Local Open Scope Z_scope.

(** C8. For an image at least one pixel wide and high, the box
    [(left, top, right, bottom)] that [sample_color] crops lies inside the
    image and is not empty: [0 <= left < right <= width] and
    [0 <= top < bottom <= height]. *)
Theorem sample_box_inside (width height : Z) :
  1 <= width -> 1 <= height ->
  let '(x0, y0, x1, y1) := sample_box width height in
  (0 <= x0 /\ x0 < x1 /\ x1 <= width)
  /\ (0 <= y0 /\ y0 < y1 /\ y1 <= height).
Proof. intros Hw Hh. unfold sample_box. lia. Qed.

Lemma sample_box_inside_witness :
  sample_box 1 1 = (0, 0, 1, 1)
  /\ let '(x0, y0, x1, y1) := sample_box 40 10 in
     (0 <= x0 /\ x0 < x1 /\ x1 <= 40)
     /\ (0 <= y0 /\ y0 < y1 /\ y1 <= 10).
Proof.
  split; [reflexivity |].
  apply (sample_box_inside 40 10); lia.
Defined.

End SampleBox.

(** ** create_hex_color_registry.py *)

Section HexKeys.
Import HexRegistry.
Local Open Scope py_scope.

Lemma rgb_to_hex_hash (rgb0 : list Z) (k : string) :
  rgb_to_hex rgb0 = Ok k -> exists rest, k = String "#" rest.
Proof.
  unfold rgb_to_hex, bind.
  destruct (index rgb0 0); [| discriminate].
  destruct (index rgb0 1); [| discriminate].
  destruct (index rgb0 2); [| discriminate].
  intro H. inversion H. eexists. reflexivity.
Qed.

Lemma hex_loop_hash (l : list (string * ColorEntry))
      (acc : result (PyDict.dict string)) (out : PyDict.dict string) :
  fold_left hex_step l acc = Ok out ->
  exists d0, acc = Ok d0 /\
    forall k, In k (PyDict.keys out) ->
      In k (PyDict.keys d0) \/ exists rest, k = String "#" rest.
Proof.
  revert acc. induction l as [| [code data] l IH]; simpl; intros acc H.
  - exists out. auto.
  - destruct (IH _ H) as (d1 & Hstep & Hkeys).
    destruct acc as [d0 | e]; [| discriminate Hstep].
    exists d0. split; [reflexivity |]. intros k Hk.
    destruct (Hkeys k Hk) as [Hin | Hhash]; [| now right].
    simpl in Hstep.
    destruct (List.length (rgb data) =? 3)%nat.
    + destruct (rgb_to_hex (rgb data)) as [h |] eqn:Hh; [| discriminate].
      simpl in Hstep. inversion Hstep; subst d1.
      rewrite PyDictFacts.keys_set in Hin.
      destruct (PyDict.mem h d0); [now left |].
      apply in_app_or in Hin as [Hin | [<- | []]]; [now left |].
      right. eapply rgb_to_hex_hash; eassumption.
    + inversion Hstep; subst. now left.
Qed.

(** Every key of the inverse registry starts with the character [#]. *)
Lemma hex_keys_start_with_hash (registry : PyDict.dict ColorEntry)
      (out : PyDict.dict string) (k : string) :
  create_hex_color_registry registry = Ok out ->
  In k (PyDict.keys out) -> exists rest, k = String "#" rest.
Proof.
  intros H Hk. apply hex_loop_hash in H as (d0 & Hd0 & Hkeys).
  inversion Hd0; subst d0.
  destruct (Hkeys k Hk) as [[] | Hhash]. exact Hhash.
Qed.

(** Apart from the [#], a colour with channels in 0..255 is stored as six
    lowercase hexadecimal digits. *)
Lemma format_02x_byte (z : Z) :
  (0 <= z < 256)%Z ->
  String.length (format_02x z) = 2 /\ all_lower_hex (format_02x z) = true.
Proof.
  intro H. rewrite <- (Z2Nat.id z) by lia.
  assert (Hn : Z.to_nat z < 256) by lia.
  generalize dependent (Z.to_nat z). clear. intros n Hn.
  do 256 (destruct n as [| n]; [split; reflexivity |]). lia.
Qed.

Lemma rgb_to_hex_byte (r g b : Z) :
  (0 <= r < 256)%Z -> (0 <= g < 256)%Z -> (0 <= b < 256)%Z ->
  exists digits,
    rgb_to_hex [r; g; b] = Ok (String "#" digits)
    /\ String.length digits = 6 /\ all_lower_hex digits = true.
Proof.
  intros Hr Hg Hb.
  destruct (format_02x_byte r Hr) as [Lr Xr].
  destruct (format_02x_byte g Hg) as [Lg Xg].
  destruct (format_02x_byte b Hb) as [Lb Xb].
  exists (format_02x r ++ format_02x g ++ format_02x b)%string.
  split; [reflexivity |]. split.
  - rewrite !length_app, Lr, Lg, Lb. reflexivity.
  - destruct (format_02x r) as [| r1 [| r2 [| ? ?]]]; try discriminate Lr.
    destruct (format_02x g) as [| g1 [| g2 [| ? ?]]]; try discriminate Lg.
    simpl in *. rewrite andb_true_r in Xr, Xg.
    apply andb_true_iff in Xr as [-> ->].
    apply andb_true_iff in Xg as [-> ->]. exact Xb.
Qed.

(** C9, at a registry with the single code [A001] and colour
    [(0, 171, 255)]: the key stored in the inverse registry is the seven
    characters [#00abff], the first of which is [#]; the docstring of
    [rgb_to_hex] says "without # prefix". *)
Theorem hex_key_has_hash_prefix :
  let registry := [("A001", {| file := "yuzu/keycaps/A001.jpg";
                               rgb := [0; 171; 255]%Z |})] in
  create_hex_color_registry registry = Ok [("#00abff", "A001")]
  /\ String.length "#00abff" = 7
  /\ String.get 0 "#00abff" = Some "#"%char.
Proof. repeat split. Qed.

End HexKeys.

(** ** generate_design_from_image.py: the nearest palette colour *)

Section Nearest.
Import DesignGenerator.
Local Open Scope Z_scope.
Implicit Types (items palette : list (string * ColorEntry)) (query : RGB).

(** The loop, once it holds a best code [c0] at distance [d0]: the result
    is at a distance [d] that no entry of [items] beats, and it is either
    [c0] itself or the first entry of [items] at distance [d]. *)
Lemma nearest_loop_spec query items (c0 : string) (d0 : Z) (c : string) :
  nearest_loop query items (Some c0) (Some d0) = Ok (Some c) ->
  exists d,
    d <= d0 /\ farther query false d items /\
    ((c = c0 /\ d = d0) \/
     exists l1 e l2,
       items = l1 ++ (c, e) :: l2 /\ rgb_distance query (rgb e) = Ok d /\
       d < d0 /\ farther query true d l1).
Proof.
  unfold farther.
  revert c0 d0. induction items as [| [k e] items IH]; intros c0 d0 H.
  - simpl in H. inversion H; subst. exists d0.
    split; [lia |]. split; [intros ? ? [] | now left].
  - simpl in H. destruct (rgb_distance query (rgb e)) as [dk |] eqn:Hdk;
      [| discriminate H]. simpl in H.
    destruct (dk <? d0) eqn:Hlt.
    + apply Z.ltb_lt in Hlt.
      destruct (IH _ _ H) as (d & Hle & Hall & Hwho).
      exists d. split; [lia |]. split.
      * intros k' e' [Heq | Hin]; [| exact (Hall _ _ Hin)].
        inversion Heq; subst. exists dk. auto.
      * right. destruct Hwho as [[-> ->] | (l1 & e1 & l2 & -> & Hd & Hlt' & Hl1)].
        -- exists [], e, items. repeat split; auto. intros ? ? [].
        -- exists ((k, e) :: l1), e1, l2. repeat split; auto; [lia |].
           intros k' e' [Heq | Hin]; [| exact (Hl1 _ _ Hin)].
           inversion Heq; subst. exists dk. auto.
    + apply Z.ltb_ge in Hlt.
      destruct (IH _ _ H) as (d & Hle & Hall & Hwho).
      exists d. split; [lia |]. split.
      * intros k' e' [Heq | Hin]; [| exact (Hall _ _ Hin)].
        inversion Heq; subst. exists dk. split; [auto | lia].
      * destruct Hwho as [Hsame | (l1 & e1 & l2 & -> & Hd & Hlt' & Hl1)];
          [now left |].
        right. exists ((k, e) :: l1), e1, l2. repeat split; auto.
        intros k' e' [Heq | Hin]; [| exact (Hl1 _ _ Hin)].
        inversion Heq; subst. exists dk. split; [auto | lia].
Qed.

(** The loop never ends without a code once it holds one, and fails only
    when a distance does. *)
Lemma nearest_loop_total query items (c0 : string) (d0 : Z) :
  Forall (fun kv => List.length (rgb (snd kv)) = 3%nat) items ->
  exists c, nearest_loop query items (Some c0) (Some d0) = Ok (Some c).
Proof.
  intro Hwf. revert c0 d0.
  induction items as [| [k e] items IH]; intros c0 d0; simpl.
  - now exists c0.
  - inversion Hwf as [| ? ? Hlen Hrest]; subst. simpl in Hlen.
    destruct query as [[r g] b].
    destruct (rgb e) as [| r2 [| g2 [| b2 [| ? ?]]]]; try discriminate Hlen.
    simpl.
    match goal with |- context [(?x <? ?y)%Z] => destruct (x <? y)%Z end;
      apply IH; assumption.
Qed.

(** What [nearest_yuzu_color] returns is the code of the first entry, in
    the iteration order of the palette, among those at the least distance. *)
Lemma nearest_yuzu_color_spec query palette (code : string) :
  nearest_yuzu_color query palette = Ok code ->
  exists l1 entry l2 d,
    palette = l1 ++ (code, entry) :: l2 /\
    rgb_distance query (rgb entry) = Ok d /\
    farther query true d l1 /\ farther query false d l2.
Proof.
  unfold nearest_yuzu_color, PyDict.items, farther.
  destruct palette as [| [k e] items]; [discriminate |]. simpl.
  destruct (rgb_distance query (rgb e)) as [dk |] eqn:Hdk; [| discriminate].
  simpl.
  destruct (nearest_loop query items (Some k) (Some dk)) as [[c |] | err] eqn:H;
    try discriminate.
  simpl. intro Hc; inversion Hc; subst c.
  apply nearest_loop_spec in H as (d & Hle & Hall & Hwho).
  destruct Hwho as [[-> ->] | (l1 & e1 & l2 & -> & Hd & Hlt & Hl1)].
  - exists [], e, items, dk. repeat split; auto. intros ? ? [].
  - exists ((k, e) :: l1), e1, l2, d. repeat split; auto.
    + intros k' e' [Heq | Hin]; [| exact (Hl1 _ _ Hin)].
      inversion Heq; subst. exists dk. auto.
    + intros k' e' Hin. apply (Hall k' e'). apply in_or_app. right. now right.
Qed.

(** On a palette that is not empty and holds three channels per entry,
    [nearest_yuzu_color] returns a code. *)
Lemma nearest_yuzu_color_total query palette :
  palette <> [] ->
  Forall (fun kv => List.length (rgb (snd kv)) = 3%nat) palette ->
  exists code, nearest_yuzu_color query palette = Ok code.
Proof.
  intros Hne Hwf. unfold nearest_yuzu_color, PyDict.items.
  destruct palette as [| [k e] items]; [contradiction |].
  inversion Hwf as [| ? ? Hlen Hrest]; subst. simpl in Hlen. simpl.
  destruct query as [[r g] b].
  destruct (rgb e) as [| r2 [| g2 [| b2 [| ? ?]]]]; try discriminate Hlen.
  simpl.
  match goal with
  | |- context [nearest_loop ?q items (Some ?c0) (Some ?d0)] =>
      destruct (nearest_loop_total q items c0 d0 Hrest) as [c ->]
  end.
  now exists c.
Qed.





End Nearest.

(** ** generate_design_from_image.py: coverage of the key registry *)

Lemma nodup_snoc (ks : list string) (k : string) (rest : list string) :
  NoDup (ks ++ k :: rest) -> ~ In k ks /\ NoDup ((ks ++ [k]) ++ rest).
Proof.
  intro H. split.
  - apply NoDup_remove_2 in H. intro Hin. apply H. apply in_or_app. now left.
  - now rewrite <- app_assoc.
Qed.

Section Coverage.
Import DesignGenerator PyDictFacts.
Variable Image : Type.
Variable width : Image -> Z.
Variable crop : Image -> BBox -> Image.
Variable dominant_color : Image -> result RGB.

(** The bounding-box loop adds one box per item, in order. *)
Lemma bbox_loop_keys (px_per_u : PyFloat.t)
      (items : list (string * Geometry.KeyEntry)) (acc out : PyDict.dict BBox) :
  bbox_loop px_per_u items acc = Ok out ->
  NoDup (PyDict.keys acc ++ PyDict.keys items) ->
  PyDict.keys out = PyDict.keys acc ++ PyDict.keys items.
Proof.
  revert acc. induction items as [| [key_id key] items IH]; simpl; intros acc H Hnd.
  - inversion H. now rewrite app_nil_r.
  - destruct (to_px (Geometry.left_u key) px_per_u); [| discriminate H].
    destruct (to_px (Geometry.top_u key) px_per_u); [| discriminate H].
    destruct (to_px (Geometry.right_u key) px_per_u); [| discriminate H].
    destruct (to_px (Geometry.bottom_u key) px_per_u); [| discriminate H].
    simpl in H. apply nodup_snoc in Hnd as [Hnew Hnd].
    apply IH in H.
    + rewrite H, keys_set_new by exact Hnew. now rewrite <- app_assoc.
    + now rewrite keys_set_new.
Qed.

(** The colour loop adds one code per bounding box, in order. *)
Lemma color_loop_keys (img : Image) (palette : PyDict.dict ColorEntry)
      (items : list (string * BBox)) (acc out : PyDict.dict string) :
  color_loop Image crop dominant_color img palette items acc = Ok out ->
  NoDup (PyDict.keys acc ++ PyDict.keys items) ->
  PyDict.keys out = PyDict.keys acc ++ PyDict.keys items.
Proof.
  revert acc. induction items as [| [key_id bbox] items IH]; simpl; intros acc H Hnd.
  - inversion H. now rewrite app_nil_r.
  - destruct (dominant_color (crop img bbox)) as [dom |]; [| discriminate H].
    simpl in H.
    destruct (nearest_yuzu_color dom palette) as [code |]; [| discriminate H].
    simpl in H. apply nodup_snoc in Hnd as [Hnew Hnd].
    apply IH in H.
    + rewrite H, keys_set_new by exact Hnew. now rewrite <- app_assoc.
    + now rewrite keys_set_new.
Qed.

Lemma build_keyboard_bbox_map_keys (w : Z)
      (registry : PyDict.dict Geometry.KeyEntry) (bbox_map : PyDict.dict BBox) :
  PyDict.wf registry ->
  build_keyboard_bbox_map w registry = Ok bbox_map ->
  PyDict.keys bbox_map = PyDict.keys registry.
Proof.
  intros Hwf H. unfold build_keyboard_bbox_map, bind in H.
  destruct (PyFloat.max_of _); [| discriminate H].
  destruct (PyFloat.div _ _); [| discriminate H].
  apply bbox_loop_keys in H; [exact H | exact Hwf].
Qed.

(** C4. Whenever [main] produces a design document from a key registry,
    the document holds a [customizedColor] map whose keys are the key ids of
    the registry, each once and in the registry's order: as many entries as
    the registry has keys, none missing and none added. *)
Theorem main_covers_every_key (registry : PyDict.dict Geometry.KeyEntry)
        (palette : PyDict.dict ColorEntry) (base_json doc : Document)
        (img : Image) :
  PyDict.wf registry ->
  main Image width crop dominant_color registry palette base_json img = Ok doc ->
  exists customized_colors,
    customizedColor doc = Some customized_colors
    /\ PyDict.keys customized_colors = PyDict.keys registry
    /\ PyDict.wf customized_colors
    /\ List.length customized_colors = List.length registry.
Proof.
  intros Hwf H. unfold main in H.
  destruct (build_keyboard_bbox_map (width img) registry) as [bbox_map |]
    eqn:Hbbox; [| discriminate H].
  simpl in H.
  destruct (color_loop _ _ _ _ _ _ _) as [cc |] eqn:Hcc; [| discriminate H].
  simpl in H. inversion H; subst doc. clear H.
  apply build_keyboard_bbox_map_keys in Hbbox; [| exact Hwf].
  apply color_loop_keys in Hcc; [| simpl; unfold PyDict.items; rewrite Hbbox; exact Hwf].
  simpl in Hcc. unfold PyDict.items in Hcc. rewrite Hbbox in Hcc.
  exists cc. repeat split.
  - unfold customizedColor. now rewrite get_set_same.
  - exact Hcc.
  - unfold PyDict.wf. rewrite Hcc. exact Hwf.
  - unfold PyDict.keys in Hcc.
    rewrite <- (length_map fst cc), Hcc. apply length_map.
Qed.

Lemma max2_finite (a b : PyFloat.t) :
  PyFloat.is_finite a = true -> PyFloat.is_finite b = true ->
  PyFloat.is_finite (PyFloat.max2 a b) = true.
Proof. intros Ha Hb. unfold PyFloat.max2. now destruct (PyFloat.ltb a b). Qed.

Lemma fold_max2_finite (xs : list PyFloat.t) (x : PyFloat.t) :
  PyFloat.is_finite x = true ->
  Forall (fun a => PyFloat.is_finite a = true) xs ->
  PyFloat.is_finite (fold_left PyFloat.max2 xs x) = true.
Proof.
  intros Hx Hxs. revert x Hx.
  induction Hxs as [| a xs Ha _ IH]; simpl; intros x Hx; [exact Hx |].
  apply IH. now apply max2_finite.
Qed.

Lemma to_px_finite (u px_per_u : PyFloat.t) :
  PyFloat.is_finite u = true -> PyFloat.is_finite px_per_u = true ->
  exists z, to_px u px_per_u = Ok z.
Proof.
  destruct u, px_per_u; try discriminate. intros _ _.
  unfold to_px. simpl. eexists. reflexivity.
Qed.

Lemma bbox_loop_total (px_per_u : PyFloat.t)
      (items : list (string * Geometry.KeyEntry)) (acc : PyDict.dict BBox) :
  PyFloat.is_finite px_per_u = true ->
  Forall (fun kv => Geometry.finite_box (snd kv) = true) items ->
  exists out, bbox_loop px_per_u items acc = Ok out.
Proof.
  intros Hpx Hall. revert acc.
  induction Hall as [| [key_id key] items Hbox _ IH]; simpl; intro acc.
  - now exists acc.
  - unfold Geometry.finite_box in Hbox. simpl in Hbox.
    apply andb_true_iff in Hbox as [Hbox Hb].
    apply andb_true_iff in Hbox as [Hbox Hr].
    apply andb_true_iff in Hbox as [Hl Ht].
    destruct (to_px_finite _ _ Hl Hpx) as [x0 ->].
    destruct (to_px_finite _ _ Ht Hpx) as [y0 ->].
    destruct (to_px_finite _ _ Hr Hpx) as [x1 ->].
    destruct (to_px_finite _ _ Hb Hpx) as [y1 ->].
    simpl. apply IH.
Qed.

Lemma color_loop_total (img : Image) (palette : PyDict.dict ColorEntry)
      (items : list (string * BBox)) (acc : PyDict.dict string) :
  (forall i, exists c, dominant_color i = Ok c) ->
  palette <> [] ->
  Forall (fun kv => List.length (rgb (snd kv)) = 3) palette ->
  exists out,
    color_loop Image crop dominant_color img palette items acc = Ok out.
Proof.
  intros Hdom Hne Hwf. revert acc.
  induction items as [| [key_id bbox] items IH]; simpl; intro acc.
  - now exists acc.
  - destruct (Hdom (crop img bbox)) as [c ->]. simpl.
    destruct (nearest_yuzu_color_total c palette Hne Hwf) as [code ->].
    simpl. apply IH.
Qed.

(** [main] does produce a document: on a registry that is not empty, whose
    boxes are numbers and whose total width is not zero, with a palette
    that is not empty and holds three channels per entry, and when Pillow
    yields a dominant colour for every crop. *)
Lemma main_produces_document (registry : PyDict.dict Geometry.KeyEntry)
      (palette : PyDict.dict ColorEntry) (base_json : Document) (img : Image)
      (total_width_u : PyFloat.t) :
  Forall (fun kv => Geometry.finite_box (snd kv) = true) registry ->
  PyFloat.max_of (map Geometry.right_u (PyDict.values registry))
    = Ok total_width_u ->
  PyFloat.is_zero total_width_u = false ->
  palette <> [] ->
  Forall (fun kv => List.length (rgb (snd kv)) = 3) palette ->
  (forall i, exists c, dominant_color i = Ok c) ->
  exists doc,
    main Image width crop dominant_color registry palette base_json img
    = Ok doc.
Proof.
  intros Hboxes Hmax Hnz Hne Hwf Hdom.
  assert (Hfin : PyFloat.is_finite total_width_u = true).
  { unfold PyFloat.max_of, PyDict.values in Hmax.
    destruct registry as [| [k0 e0] registry]; [discriminate Hmax |].
    simpl in Hmax. inversion Hmax; subst total_width_u.
    inversion Hboxes as [| ? ? Hb0 Hrest]; subst.
    apply fold_max2_finite.
    - unfold Geometry.finite_box in Hb0. simpl in Hb0.
      apply andb_true_iff in Hb0 as [Hb0 _].
      now apply andb_true_iff in Hb0 as [_ Hb0].
    - apply Forall_forall. intros a Ha.
      apply in_map_iff in Ha as (e & <- & He).
      apply in_map_iff in He as ([k e'] & <- & Hin).
      rewrite Forall_forall in Hrest. specialize (Hrest _ Hin).
      unfold Geometry.finite_box in Hrest. simpl in *.
      apply andb_true_iff in Hrest as [Hb _].
      now apply andb_true_iff in Hb as [_ Hb]. }
  unfold main, build_keyboard_bbox_map. rewrite Hmax. simpl.
  unfold PyFloat.div. rewrite Hnz.
  destruct total_width_u as [q | | |]; try discriminate Hfin. simpl.
  match goal with
  | |- context [bbox_loop ?px ?items ?acc] =>
      destruct (bbox_loop_total px items acc eq_refl Hboxes) as [bbox_map ->]
  end.
  simpl.
  match goal with
  | |- context [color_loop _ _ _ _ _ ?items ?acc] =>
      destruct (color_loop_total img palette items acc Hdom Hne Hwf)
        as [cc ->]
  end.
  simpl. eexists. reflexivity.
Qed.

End Coverage.

Lemma main_covers_every_key_witness :
  let key l r := {| Geometry.label := None;
                    Geometry.x_u := PyFloat.of_Z l; Geometry.y_u := PyFloat.of_Z 0;
                    Geometry.width_u := PyFloat.of_Z 1;
                    Geometry.height_u := PyFloat.of_Z 1;
                    Geometry.left_u := PyFloat.of_Z l;
                    Geometry.top_u := PyFloat.of_Z 0;
                    Geometry.right_u := PyFloat.of_Z r;
                    Geometry.bottom_u := PyFloat.of_Z 1 |} in
  let registry := [("K1", key 0 1); ("K2", key 1 2)]%Z in
  let palette := [("A001", {| file := "yuzu/keycaps/A001.jpg"; rgb := [0; 0; 0]%Z |});
                  ("A002", {| file := "yuzu/keycaps/A002.jpg"; rgb := [255; 255; 255]%Z |})] in
  let base_json := [("name", DesignGenerator.Other "base");
                    ("customizedColor", DesignGenerator.Colors [])] in
  let run := DesignGenerator.main Z (fun w => w) (fun img _ => img)
               (fun _ => Ok (10, 10, 10)%Z) registry palette base_json 200%Z in
  run = Ok [("name", DesignGenerator.Other "base");
            ("customizedColor",
             DesignGenerator.Colors [("K1", "A001"); ("K2", "A001")])]
  /\ exists doc customized_colors,
       run = Ok doc
       /\ DesignGenerator.customizedColor doc = Some customized_colors
       /\ PyDict.keys customized_colors = ["K1"; "K2"].
Proof.
  intros key registry palette base_json run.
  assert (Hrun : run = Ok [("name", DesignGenerator.Other "base");
                           ("customizedColor",
                            DesignGenerator.Colors [("K1", "A001"); ("K2", "A001")])])
    by reflexivity.
  split; [exact Hrun |].
  assert (Hwf : PyDict.wf registry).
  { unfold PyDict.wf. simpl. repeat constructor; simpl; intuition discriminate. }
  destruct (main_covers_every_key Z (fun w => w) (fun img _ => img)
              (fun _ => Ok (10, 10, 10)%Z) registry palette base_json _ 200%Z
              Hwf Hrun) as (cc & Hcc & Hkeys & _).
  eexists. exists cc. split; [exact Hrun |]. split; [exact Hcc | exact Hkeys].
Defined.

(** ** build_key_position_registry.py *)

Section KeyLayout.
Import Geometry.
Local Open Scope py_scope.

(** C1, at a layout of two keys. The first, at [(0, 0)], has no [<rect>]
    and is skipped, after its position has entered [min_x] and [min_y];
    the second, at [(1, 1)], is one unit wide and high. The registry holds
    the second key alone, with [left_u = 1] and [top_u = 1]: the least
    [left_u] and the least [top_u] of the registry are 1, not 0. *)
Theorem parse_key_layout_skipped_key_shifts_origin :
  let skipped := {| data_key_id := "k_esc";
                    data_key_x := Some "0"; data_key_y := Some "0";
                    data_key_labelid := Some "Esc"; rect := None |} in
  let kept := {| data_key_id := "k_f1";
                 data_key_x := Some "1"; data_key_y := Some "1";
                 data_key_labelid := Some "F1";
                 rect := Some {| rect_width := Some "19.05";
                                 rect_height := Some "19.05" |} |} in
  parse_key_layout [skipped; kept]
  = Ok [("k_f1", {| label := Some "F1";
                    x_u := PyFloat.of_Z 1; y_u := PyFloat.of_Z 1;
                    width_u := PyFloat.of_Z 1; height_u := PyFloat.of_Z 1;
                    left_u := PyFloat.of_Z 1; top_u := PyFloat.of_Z 1;
                    right_u := PyFloat.of_Z 2; bottom_u := PyFloat.of_Z 2 |})]
  /\ parse_key_layout [kept]
     = Ok [("k_f1", {| label := Some "F1";
                       x_u := PyFloat.of_Z 1; y_u := PyFloat.of_Z 1;
                       width_u := PyFloat.of_Z 1; height_u := PyFloat.of_Z 1;
                       left_u := PyFloat.of_Z 0; top_u := PyFloat.of_Z 0;
                       right_u := PyFloat.of_Z 1; bottom_u := PyFloat.of_Z 1 |})].
Proof. split; reflexivity. Qed.

(** A key whose position attribute is no number and holds no digit makes
    the position block raise. *)
Lemma position_unparseable (elem : KeyElem) (s : string) :
  data_key_x elem = Some s \/ data_key_y elem = Some s ->
  FloatParse.float s = Raise ValueError ->
  first_token s = None ->
  exists e, position elem = Raise e.
Proof.
  intros Hs Hfloat Htok. unfold position.
  assert (Htoken : float_first_token (Some s) = Raise IndexError).
  { unfold float_first_token. now rewrite Htok. }
  destruct Hs as [Hx | Hy].
  - rewrite Hx. simpl. rewrite Hfloat. simpl.
    unfold float_first_token at 1. rewrite Htok. simpl.
    now exists IndexError.
  - rewrite Hy. destruct (float_attr (data_key_x elem)) as [x | e] eqn:Hx.
    + simpl. rewrite Hfloat. simpl.
      destruct (float_first_token (data_key_x elem)) as [x' | e'].
      * simpl. rewrite Htoken. simpl. now exists IndexError.
      * simpl. now exists e'.
    + simpl. destruct e; try (eexists; reflexivity).
      destruct (float_first_token (data_key_x elem)) as [x' | e'].
      * simpl. rewrite Htoken. simpl. now exists IndexError.
      * simpl. now exists e'.
Qed.

Lemma first_pass_raises (before after : list KeyElem) (elem : KeyElem)
      (st : pass1) :
  (exists e, position elem = Raise e) ->
  exists e, first_pass st (before ++ elem :: after) = Raise e.
Proof.
  intros [e He]. revert st. induction before as [| a before IH]; intro st.
  - simpl. unfold gather. rewrite He. simpl. now exists e.
  - simpl. destruct (gather st a) as [st' | e']; simpl.
    + apply IH.
    + now exists e'.
Qed.

(** C6, on the code. A key element whose [data-key-x] or [data-key-y]
    attribute is not accepted by [float] and holds no numeric token is not
    skipped: wherever it stands in the layout, [parse_key_layout] raises
    and no registry is built. *)
Theorem parse_key_layout_unparseable_position_aborts
        (before after : list KeyElem) (elem : KeyElem) (s : string) :
  data_key_x elem = Some s \/ data_key_y elem = Some s ->
  FloatParse.float s = Raise ValueError ->
  first_token s = None ->
  exists e, parse_key_layout (before ++ elem :: after) = Raise e.
Proof.
  intros Hs Hfloat Htok. unfold parse_key_layout.
  destruct (first_pass_raises before after elem pass1_init
              (position_unparseable elem s Hs Hfloat Htok)) as [e ->].
  now exists e.
Qed.

Lemma parse_key_layout_unparseable_position_aborts_witness :
  let good := {| data_key_id := "k_f1";
                 data_key_x := Some "1"; data_key_y := Some "1";
                 data_key_labelid := Some "F1";
                 rect := Some {| rect_width := Some "19.05";
                                 rect_height := Some "19.05" |} |} in
  let bad := {| data_key_id := "k_f2";
                data_key_x := Some "[n/a]"; data_key_y := Some "1";
                data_key_labelid := Some "F2";
                rect := Some {| rect_width := Some "19.05";
                                rect_height := Some "19.05" |} |} in
  parse_key_layout [good; bad; good] = Raise IndexError
  /\ is_ok (parse_key_layout [good]) = true
  /\ exists e, parse_key_layout ([good] ++ bad :: [good]) = Raise e.
Proof.
  intros good bad.
  split; [reflexivity |]. split; [reflexivity |].
  apply (parse_key_layout_unparseable_position_aborts [good] [good] bad "[n/a]").
  - left. reflexivity.
  - reflexivity.
  - reflexivity.
Defined.

End KeyLayout.

(** ** build_key_position_registry.py: the origin when no key is skipped *)

Section Origin.
Import Geometry PyFloat.
Local Open Scope Q_scope.

Lemma round_half_even_comp (p q : Q) :
  p == q -> round_half_even p = round_half_even q.
Proof.
  intro H. unfold round_half_even.
  rewrite (Qround.Qfloor_comp _ _ H).
  rewrite (Qcompare_comp (p - inject_Z (Qround.Qfloor q))
                         (q - inject_Z (Qround.Qfloor q))
                         ltac:(now rewrite H) (1 # 2) (1 # 2) (Qeq_refl _)).
  reflexivity.
Qed.

Lemma round_half_even_nonneg (q : Q) : 0 <= q -> (0 <= round_half_even q)%Z.
Proof.
  intro H. unfold round_half_even. cbv zeta.
  assert (Hf : (0 <= Qround.Qfloor q)%Z).
  { change 0%Z with (Qround.Qfloor 0). now apply Qround.Qfloor_resp_le. }
  destruct (q - inject_Z (Qround.Qfloor q) ?= 1 # 2);
    [destruct (Z.even (Qround.Qfloor q)) | |]; lia.
Qed.

(** [round(x - m, 4)] is zero when [x] is [m]. *)
Lemma round4_sub_self (m : Q) : round4 (sub (Fin m) (Fin m)) = zero.
Proof.
  unfold sub, neg, add, round4, zero, of_Z. f_equal.
  assert (H0 : Qred (m + Qred (- m)) * 10000 == 0).
  { rewrite !Qred_correct. ring. }
  rewrite (round_half_even_comp _ _ H0). reflexivity.
Qed.

(** [round(x - m, 4)] is not negative when [m <= x]. *)
Lemma round4_sub_nonneg (x m : Q) :
  m <= x -> exists q, round4 (sub (Fin x) (Fin m)) = Fin q /\ 0 <= q.
Proof.
  intro H. unfold sub, neg, add, round4. eexists. split; [reflexivity |].
  rewrite Qred_correct.
  assert (Hz : (0 <= round_half_even (Qred (x + Qred (- m)) * 10000))%Z).
  { apply round_half_even_nonneg. rewrite !Qred_correct.
    apply Qmult_le_0_compat; [| discriminate].
    now apply -> Qle_minus_iff. }
  unfold Qdiv. apply Qmult_le_0_compat; [| discriminate].
  change 0 with (inject_Z 0). now rewrite <- Zle_Qle.
Qed.

(** The running minimum over numbers is one of them and bounds them all. *)
Lemma fold_min2_fin (xs : list t) (q : Q) :
  Forall (fun a => is_finite a = true) xs ->
  exists m, fold_left min2 xs (Fin q) = Fin m /\
            (m = q \/ In (Fin m) xs) /\ m <= q /\
            forall x, In (Fin x) xs -> m <= x.
Proof.
  intro Hfin. revert q.
  induction Hfin as [| a xs Ha _ IH]; intro q; simpl.
  - exists q. repeat split; auto using Qle_refl. intros x [].
  - destruct a as [x | | |]; try discriminate Ha.
    unfold min2 at 2. simpl. destruct (Qle_bool q x) eqn:Hle; simpl.
    + apply Qle_bool_iff in Hle.
      destruct (IH q) as (m & -> & Hm & Hmq & Hall).
      exists m. repeat split; auto.
      * destruct Hm; auto.
      * intros y [Hy | Hy]; [| now apply Hall].
        inversion Hy; subst. now apply Qle_trans with q.
    + assert (Hlt : x < q).
      { apply Qnot_le_lt. intro Hc. apply Qle_bool_iff in Hc. congruence. }
      destruct (IH x) as (m & -> & Hm & Hmx & Hall).
      exists m. repeat split; auto.
      * right. destruct Hm as [-> | Hm]; auto.
      * apply Qle_trans with x; auto using Qlt_le_weak.
      * intros y [Hy | Hy]; [| now apply Hall].
        inversion Hy; subst. exact Hmx.
Qed.

Lemma fold_min2_from_inf (xs : list t) :
  xs <> [] -> Forall (fun a => is_finite a = true) xs ->
  exists m, fold_left min2 xs PInf = Fin m /\ In (Fin m) xs /\
            forall x, In (Fin x) xs -> m <= x.
Proof.
  intros Hne Hfin. destruct xs as [| a xs]; [contradiction |].
  inversion Hfin as [| ? ? Ha Hrest]; subst.
  destruct a as [x | | |]; try discriminate Ha. simpl.
  change (min2 PInf (Fin x)) with (Fin x).
  destruct (fold_min2_fin xs x Hrest) as (m & -> & Hm & Hmx & Hall).
  exists m. repeat split.
  - destruct Hm as [-> | Hm]; auto.
  - intros y [Hy | Hy]; [| now apply Hall]. inversion Hy; subst. exact Hmx.
Qed.

Local Close Scope Q_scope.

Lemma gather_spec (st st' : pass1) (elem : KeyElem) :
  gather st elem = Ok st' -> rect elem <> None ->
  exists k,
    raw st' = raw st ++ [k] /\ raw_id k = data_key_id elem /\
    min_x st' = min2 (min_x st) (raw_x k) /\
    min_y st' = min2 (min_y st) (raw_y k).
Proof.
  unfold gather, bind. intros H Hrect.
  destruct (position elem) as [[x y] |]; [| discriminate H].
  destruct (rect elem) as [r |]; [| contradiction].
  destruct (float_item (rect_width r)) as [w |]; [| discriminate H].
  destruct (float_item (rect_height r)) as [h |]; [| discriminate H].
  destruct (div w UNIT_MM) as [wu |]; [| discriminate H].
  destruct (div h UNIT_MM) as [hu |]; [| discriminate H].
  inversion H; subst st'. simpl.
  eexists. split; [reflexivity |]. simpl. auto.
Qed.

Lemma first_pass_spec (elems : list KeyElem) (st st' : pass1) :
  first_pass st elems = Ok st' ->
  Forall (fun e => rect e <> None) elems ->
  exists new,
    raw st' = raw st ++ new /\
    map raw_id new = map data_key_id elems /\
    min_x st' = fold_left min2 (map raw_x new) (min_x st) /\
    min_y st' = fold_left min2 (map raw_y new) (min_y st).
Proof.
  revert st. induction elems as [| elem elems IH]; simpl; intros st H Hall.
  - inversion H; subst. exists []. rewrite app_nil_r. auto.
  - inversion Hall as [| ? ? Hrect Hrest]; subst.
    destruct (gather st elem) as [st1 |] eqn:Hg; [| discriminate H].
    simpl in H.
    destruct (gather_spec _ _ _ Hg Hrect) as (k & Hraw & Hid & Hx & Hy).
    destruct (IH _ H Hrest) as (new & Hraw' & Hids & Hx' & Hy').
    exists (k :: new). simpl. rewrite Hraw', Hraw, <- app_assoc.
    rewrite Hid, Hids, Hx', Hy', Hx, Hy. auto.
Qed.

Lemma second_pass_spec (mx my : t) (raws : list raw_key)
      (acc : PyDict.dict KeyEntry) :
  NoDup (PyDict.keys acc ++ map raw_id raws) ->
  fold_left (normalize mx my) raws acc
  = acc ++ map (fun k => (raw_id k, entry_of mx my k)) raws.
Proof.
  revert acc. induction raws as [| k raws IH]; simpl; intros acc Hnd.
  - now rewrite app_nil_r.
  - apply nodup_snoc in Hnd as [Hnew Hnd].
    unfold normalize at 2. rewrite (PyDictFacts.set_new _ _ _ Hnew).
    rewrite IH.
    + now rewrite <- app_assoc.
    + unfold PyDict.keys in *. now rewrite map_app.
Qed.

Lemma entry_of_left (mx my : t) (k : raw_key) :
  left_u (entry_of mx my k) = round4 (sub (raw_x k) mx)
  /\ top_u (entry_of mx my k) = round4 (sub (raw_y k) my)
  /\ x_u (entry_of mx my k) = raw_x k
  /\ y_u (entry_of mx my k) = raw_y k.
Proof. destruct k as [[[[[key_id x] y] w] h] l]. simpl. auto. Qed.

(** One axis of the invariant: the offsets from the running minimum, once
    rounded, are never negative and one of them is zero. *)
Lemma offsets_from_minimum (coords : list t) :
  coords <> [] -> Forall (fun a => is_finite a = true) coords ->
  let m := fold_left min2 coords PInf in
  (exists a, In a coords /\ round4 (sub a m) = zero)
  /\ (forall a, In a coords ->
        exists q, round4 (sub a m) = Fin q /\ (0 <= q)%Q).
Proof.
  intros Hne Hfin m.
  destruct (fold_min2_from_inf coords Hne Hfin) as (q & Hq & Hin & Hall).
  unfold m. rewrite Hq. split.
  - exists (Fin q). split; [exact Hin | apply round4_sub_self].
  - intros a Ha. rewrite Forall_forall in Hfin.
    specialize (Hfin a Ha). destruct a as [x | | |]; try discriminate Hfin.
    apply round4_sub_nonneg. now apply Hall.
Qed.

(** X26. When no key element lacks its [<rect>] and the key ids are
    distinct, the registry has the invariant of C1: every [left_u] and [top_u] is a
    number that is not negative, and some key has [left_u = 0] and some key
    has [top_u = 0]. *)
Lemma parse_key_layout_origin (elems : list KeyElem)
      (registry : PyDict.dict KeyEntry) :
  parse_key_layout elems = Ok registry ->
  Forall (fun e => rect e <> None) elems ->
  NoDup (map data_key_id elems) ->
  registry <> [] ->
  (forall k e, In (k, e) registry ->
     is_finite (x_u e) = true /\ is_finite (y_u e) = true) ->
  ((exists k e, In (k, e) registry /\ left_u e = zero)
   /\ (forall k e, In (k, e) registry ->
         exists q, left_u e = Fin q /\ (0 <= q)%Q))
  /\ ((exists k e, In (k, e) registry /\ top_u e = zero)
      /\ (forall k e, In (k, e) registry ->
            exists q, top_u e = Fin q /\ (0 <= q)%Q)).
Proof.
  unfold parse_key_layout. intros H Hrect Hnd Hne Hfin.
  destruct (first_pass pass1_init elems) as [st |] eqn:Hfp; [| discriminate H].
  simpl in H. inversion H; subst registry. clear H.
  destruct (first_pass_spec _ _ _ Hfp Hrect) as (new & Hraw & Hids & Hx & Hy).
  simpl in Hraw, Hx, Hy. rewrite Hraw in *.
  rewrite second_pass_spec in * by (simpl; now rewrite Hids).
  simpl in *.
  assert (Hnew : new <> []) by (intros ->; now apply Hne).
  assert (Hin : forall k, In k new ->
                  In (raw_id k, entry_of (min_x st) (min_y st) k)
                     (map (fun k => (raw_id k, entry_of (min_x st) (min_y st) k))
                          new))
    by (intros k Hk; apply in_map_iff; exists k; auto).
  assert (Hfx : Forall (fun a => is_finite a = true) (map raw_x new)).
  { apply Forall_forall. intros a Ha. apply in_map_iff in Ha as (k & <- & Hk).
    destruct (Hfin _ _ (Hin k Hk)) as [Hf _].
    now rewrite (proj1 (proj2 (proj2 (entry_of_left _ _ k)))) in Hf. }
  assert (Hfy : Forall (fun a => is_finite a = true) (map raw_y new)).
  { apply Forall_forall. intros a Ha. apply in_map_iff in Ha as (k & <- & Hk).
    destruct (Hfin _ _ (Hin k Hk)) as [_ Hf].
    now rewrite (proj2 (proj2 (proj2 (entry_of_left _ _ k)))) in Hf. }
  assert (Hnx : map raw_x new <> []) by (destruct new; [contradiction | discriminate]).
  assert (Hny : map raw_y new <> []) by (destruct new; [contradiction | discriminate]).
  destruct (offsets_from_minimum _ Hnx Hfx) as [(ax & Hax & Hzx) Hposx].
  destruct (offsets_from_minimum _ Hny Hfy) as [(ay & Hay & Hzy) Hposy].
  rewrite <- Hx in Hzx, Hposx. rewrite <- Hy in Hzy, Hposy.
  repeat split.
  - apply in_map_iff in Hax as (k & <- & Hk).
    exists (raw_id k), (entry_of (min_x st) (min_y st) k).
    split; [now apply Hin |].
    now rewrite (proj1 (entry_of_left _ _ k)).
  - intros k e He. apply in_map_iff in He as (rk & Heq & Hk).
    inversion Heq; subst. rewrite (proj1 (entry_of_left _ _ rk)).
    apply Hposx. now apply in_map.
  - apply in_map_iff in Hay as (k & <- & Hk).
    exists (raw_id k), (entry_of (min_x st) (min_y st) k).
    split; [now apply Hin |].
    now rewrite (proj1 (proj2 (entry_of_left _ _ k))).
  - intros k e He. apply in_map_iff in He as (rk & Heq & Hk).
    inversion Heq; subst. rewrite (proj1 (proj2 (entry_of_left _ _ rk))).
    apply Hposy. now apply in_map.
Qed.

End Origin.

(* ================================================================== *)
(** * Further properties *)

(** ** fix_color_registry_codes.py: [pad_code] and [normalize_code] *)

Section PadCode.
Import CodeNormalizer CodeFacts.

(** A code that [CODE_RE] matches is no mis-read code: its third
    character is a digit. *)
Lemma CODE_RE_not_I (s p d : string) :
  CODE_RE s = Some (p, d) -> I_MIS_OCR_RE s = None.
Proof.
  intro H. apply CODE_RE_inv in H as (a & b & -> & _ & _ & Hne & Hd & Hs).
  destruct d as [| c d]; [contradiction |].
  simpl in Hd. apply andb_true_iff in Hd as [Hc _].
  destruct Hs as [-> | ->]; simpl;
    apply I_MIS_OCR_RE_third, digit_not_I, Hc.
Qed.

Lemma normalize_code_no_I (s : string) :
  I_MIS_OCR_RE s = None -> normalize_code s = pad_code s.
Proof. intro H. unfold normalize_code, pad_code. now rewrite H. Qed.

Lemma pad_code_canonical (a b : ascii) (d : string) :
  is_upper a = true -> is_upper b = true ->
  all_digits d = true -> 3 <= String.length d ->
  pad_code (String a (String b d)) = String a (String b d).
Proof.
  intros Ha Hb Hd Hlen. unfold pad_code.
  rewrite (CODE_RE_run a b d Ha Hb Hd)
    by (destruct d; [simpl in Hlen; lia | discriminate]).
  apply Nat.leb_le in Hlen. now rewrite Hlen.
Qed.

(** Every result of [pad_code] is its argument or two capitals followed
    by at least three digits. *)
Lemma pad_code_shape (s : string) :
  pad_code s = s \/
  exists a b d,
    is_upper a = true /\ is_upper b = true /\ all_digits d = true /\
    3 <= String.length d /\ pad_code s = String a (String b d).
Proof.
  unfold pad_code.
  destruct (CODE_RE s) as [[p d] |] eqn:HC; [| now left].
  destruct (3 <=? String.length d)%nat eqn:Hlen; [now left |].
  right. apply Nat.leb_gt in Hlen.
  apply CODE_RE_inv in HC as (a & b & -> & Ha & Hb & Hne & Hd & _).
  rewrite (format_03d_int d Hd Hne Hlen).
  exists a, b, (zfill 3 d).
  repeat split; auto using zfill_all_digits, zfill_length.
Qed.

Lemma normalize_code_twice (s : string) :
  normalize_code (normalize_code s) = normalize_code s.
Proof.
  destruct (normalize_code_shape s)
    as [H | (a & b & d & Ha & Hb & Hd & Hlen & ->)].
  - congruence.
  - now apply normalize_code_canonical.
Qed.

(** A mis-read code comes out as two capitals followed by at least three
    digits. *)
Lemma normalize_code_I (s p d : string) :
  I_MIS_OCR_RE s = Some (p, d) ->
  exists a b d',
    is_upper a = true /\ is_upper b = true /\ all_digits d' = true /\
    3 <= String.length d' /\ normalize_code s = String a (String b d').
Proof.
  intro HI. unfold normalize_code. rewrite HI.
  apply I_MIS_OCR_RE_inv in HI as (a & b & -> & Ha & Hb & Hne & Hd & _).
  assert (Hd1 : all_digits (String "1" d) = true) by (simpl; exact Hd).
  change (String a (String b "") ++ "1" ++ d)%string
    with (String a (String b (String "1" d))).
  rewrite (CODE_RE_run a b (String "1" d) Ha Hb Hd1) by discriminate.
  destruct (3 <=? String.length (String "1" d))%nat eqn:Hlen.
  - apply Nat.leb_le in Hlen. exists a, b, (String "1" d). auto.
  - apply Nat.leb_gt in Hlen.
    rewrite (format_03d_int _ Hd1) by (discriminate || exact Hlen).
    exists a, b, (zfill 3 (String "1" d)).
    repeat split; auto using zfill_all_digits, zfill_length.
Qed.

Lemma pad_code_twice (s : string) : pad_code (pad_code s) = pad_code s.
Proof.
  destruct (pad_code_shape s)
    as [H | (a & b & d & Ha & Hb & Hd & Hlen & ->)].
  - congruence.
  - now apply pad_code_canonical.
Qed.

(** X1. [pad_code] is idempotent, and [normalize_code] absorbs it on
    either side: padding before or after the full normalisation changes
    nothing. *)
Theorem pad_code_absorbed (s : string) :
  pad_code (pad_code s) = pad_code s
  /\ normalize_code (pad_code s) = normalize_code s
  /\ pad_code (normalize_code s) = normalize_code s.
Proof.
  split; [apply pad_code_twice |]. split.
  - destruct (CODE_RE s) as [[p d] |] eqn:HC.
    + rewrite (normalize_code_no_I s (CODE_RE_not_I _ _ _ HC)).
      destruct (pad_code_shape s)
        as [H | (a & b & d' & Ha & Hb & Hd & Hlen & ->)].
      * rewrite H.
        now rewrite (normalize_code_no_I s (CODE_RE_not_I _ _ _ HC)).
      * now apply normalize_code_canonical.
    + unfold pad_code at 1. now rewrite HC.
  - destruct (I_MIS_OCR_RE s) as [[p d] |] eqn:HI.
    + destruct (normalize_code_I _ _ _ HI)
        as (a & b & d' & Ha & Hb & Hd & Hlen & ->).
      now apply pad_code_canonical.
    + rewrite (normalize_code_no_I s HI). apply pad_code_twice.
Qed.

Lemma int_acc_zeros (n : nat) (acc : N) (d : string) :
  int_acc acc (zeros n ++ d) = int_acc (acc * 10 ^ N.of_nat n) d.
Proof.
  revert acc. induction n as [| n IH]; intro acc.
  - simpl. now rewrite N.mul_1_r.
  - rewrite Nat2N.inj_succ, N.pow_succ_r'.
    change (zeros (S n) ++ d)%string with (String "0" (zeros n ++ d)).
    change (int_acc acc (String "0" (zeros n ++ d)))
      with (int_acc (acc * 10 + 0) (zeros n ++ d)).
    rewrite IH. f_equal. lia.
Qed.

(** X2. Padding keeps the letters and the number: on two capitals and a
    digit run, the result is the same two capitals followed by a run of at
    least three digits with the same value as the run given. *)
Theorem normalize_code_keeps_number (a b : ascii) (d : string) :
  is_upper a = true -> is_upper b = true ->
  all_digits d = true -> d <> EmptyString ->
  exists d',
    normalize_code (String a (String b d)) = String a (String b d')
    /\ all_digits d' = true
    /\ String.length d' = Nat.max 3 (String.length d)
    /\ int d' = int d.
Proof.
  intros Ha Hb Hd Hne. exists (zfill 3 d).
  split; [now apply normalize_code_two_letters |].
  split; [now apply zfill_all_digits |]. split.
  - unfold zfill. rewrite length_app, length_zeros. lia.
  - unfold zfill, int. rewrite int_acc_zeros. reflexivity.
Qed.

Lemma normalize_code_keeps_number_witness :
  exists d',
    normalize_code "GR27" = String "G" (String "R" d')
    /\ all_digits d' = true
    /\ String.length d' = 3
    /\ int d' = 27%N.
Proof.
  apply (normalize_code_keeps_number "G" "R" "27");
    [reflexivity | reflexivity | reflexivity | discriminate].
Defined.

End PadCode.

(** ** fix_color_registry_codes.py: what a run leaves behind *)

Section FixRegistryMore.
Import CodeNormalizer PyDictFacts.
Implicit Types (st : fix_state) (l : list (string * ColorEntry)).

Lemma fix_step_keys st item k :
  In k (PyDict.keys (remapped st)) ->
  In k (PyDict.keys (remapped (fix_step st item))).
Proof.
  intro H. destruct item as [code entry]. unfold fix_step.
  destruct (PyDict.mem (normalize_code code) (remapped st)) eqn:E; simpl.
  - exact H.
  - rewrite keys_set, E. apply in_or_app. now left.
Qed.

Lemma fix_loop_keys st l k :
  In k (PyDict.keys (remapped st)) ->
  In k (PyDict.keys (remapped (fold_left fix_step l st))).
Proof.
  revert st. induction l as [| item l IH]; simpl; intros st H; [exact H |].
  apply IH. now apply fix_step_keys.
Qed.

Lemma fix_loop_covers st l k0 :
  In k0 (PyDict.keys l) ->
  In (normalize_code k0) (PyDict.keys (remapped (fold_left fix_step l st))).
Proof.
  revert st. induction l as [| [code entry] l IH]; simpl; intros st H;
    [contradiction |].
  destruct H as [<- | H]; [| now apply IH].
  apply fix_loop_keys. unfold fix_step.
  destruct (PyDict.mem (normalize_code code) (remapped st)) eqn:E; simpl.
  - now apply mem_true_iff.
  - rewrite keys_set, E. apply in_or_app. right. now left.
Qed.

(** X3. The codes of the result are exactly the normalised codes of the
    input: no code of the registry is left without its normalised code in
    the result, and the result holds no other code. *)
Theorem fix_registry_keys (registry : PyDict.dict ColorEntry) (k : string) :
  In k (PyDict.keys (remapped (fix_registry registry))) <->
  exists k0, In k0 (PyDict.keys registry) /\ k = normalize_code k0.
Proof.
  split.
  - intro H. apply in_map_iff in H as ([k' v] & Hk & Hin). simpl in Hk.
    subst k'. apply fix_loop_in in Hin as [[] | (k0 & Hin & ->)].
    exists k0. split; [| reflexivity].
    apply in_map_iff. exists (k0, v). auto.
  - intros (k0 & Hin & ->). now apply fix_loop_covers.
Qed.

Lemma fix_loop_fixed l st :
  NoDup (PyDict.keys (remapped st) ++ PyDict.keys l) ->
  (forall k, In k (PyDict.keys l) -> normalize_code k = k) ->
  fold_left fix_step l st
  = {| remapped := remapped st ++ l;
       changed := changed st;
       warned := warned st |}.
Proof.
  revert st. induction l as [| [code entry] l IH]; intros st Hnd Hfix.
  - simpl. rewrite app_nil_r. now destruct st.
  - simpl in Hnd. cbn [fold_left]. apply nodup_snoc in Hnd as [Hnew Hnd].
    assert (Hstep : fix_step st (code, entry)
                    = {| remapped := remapped st ++ [(code, entry)];
                         changed := changed st;
                         warned := warned st |}).
    { unfold fix_step. rewrite (Hfix code) by now left.
      apply mem_false_iff in Hnew. rewrite Hnew.
      rewrite String.eqb_refl, set_new by now apply mem_false_iff.
      reflexivity. }
    rewrite Hstep, IH; simpl.
    + now rewrite <- app_assoc.
    + unfold PyDict.keys in *. now rewrite map_app.
    + intros k Hk. apply Hfix. now right.
Qed.

(** X4. A second run finds nothing to do: on the registry that a run
    produced, read back in any key order (the file is written with sorted
    keys), the loop returns the registry it was given as it is, renames no
    code and prints no warning. *)
Theorem fix_registry_second_run (registry written : PyDict.dict ColorEntry) :
  Permutation written (remapped (fix_registry registry)) ->
  fix_registry written
  = {| remapped := written; changed := []; warned := [] |}.
Proof.
  intro Hperm. unfold fix_registry at 1. unfold PyDict.items.
  rewrite fix_loop_fixed; [reflexivity | |].
  - simpl. unfold PyDict.keys.
    apply (Permutation_NoDup (Permutation_sym (Permutation_map fst Hperm))).
    unfold fix_registry. apply (fix_loop_wf _ fix_init). constructor.
  - intros k Hk. apply in_map_iff in Hk as ([k' v] & Hk & Hin).
    simpl in Hk. subst k'.
    apply (Permutation_in _ Hperm) in Hin.
    apply fix_loop_in in Hin as [[] | (k0 & _ & ->)].
    apply normalize_code_twice.
Qed.

Lemma fix_registry_second_run_witness :
  let gr := {| file := "yuzu/keycaps/GR27.jpg"; rgb := [10; 20; 30]%Z |} in
  let ab := {| file := "yuzu/keycaps/AB5.jpg"; rgb := [1; 2; 3]%Z |} in
  let written := [("AB005", ab); ("GR027", gr)] in
  Permutation written (remapped (fix_registry [("GR27", gr); ("AB5", ab)]))
  /\ fix_registry written
     = {| remapped := written; changed := []; warned := [] |}.
Proof.
  intros gr ab written.
  assert (H : Permutation written
                (remapped (fix_registry [("GR27", gr); ("AB5", ab)])))
    by apply perm_swap.
  split; [exact H |].
  apply (fix_registry_second_run [("GR27", gr); ("AB5", ab)] written H).
Defined.

Lemma fix_loop_changed l st (old new : string) :
  In (old, new) (changed (fold_left fix_step l st)) ->
  In (old, new) (changed st) \/
  (new = normalize_code old /\ old <> new /\
   exists v, In (old, v) l /\
             PyDict.get new (remapped (fold_left fix_step l st)) = Some v).
Proof.
  revert st. induction l as [| [code entry] l IH]; intros st H.
  - now left.
  - cbn [fold_left] in *.
    destruct (IH _ H) as [H1 | (Hn & Hne & v & Hin & Hget)].
    + unfold fix_step in H1.
      destruct (PyDict.mem (normalize_code code) (remapped st)) eqn:E;
        simpl in H1; [now left |].
      destruct (String.eqb (normalize_code code) code) eqn:Heq;
        [now left |].
      apply in_app_or in H1 as [H1 | [H1 | []]]; [now left |].
      inversion H1; subst. right.
      apply String.eqb_neq in Heq. repeat split; auto.
      exists entry. split; [now left |].
      apply fix_loop_get. unfold fix_step. rewrite E. simpl.
      apply get_set_same.
    + right. repeat split; auto. exists v. split; [now right | exact Hget].
Qed.

(** X5. The change log is faithful: every pair (old, new) it holds is a
    code of the input and its normalised code, the two differ, and the
    result holds under the new code the value the input held under the old
    one. *)
Theorem fix_registry_changed (registry : PyDict.dict ColorEntry)
        (old new : string) :
  In (old, new) (changed (fix_registry registry)) ->
  new = normalize_code old /\ old <> new /\
  exists v, In (old, v) (PyDict.items registry) /\
            PyDict.get new (remapped (fix_registry registry)) = Some v.
Proof.
  intro H. apply fix_loop_changed in H as [[] | H]. exact H.
Qed.

Lemma fix_registry_changed_witness :
  let e := {| file := "yuzu/keycaps/GR27.jpg"; rgb := [10; 20; 30]%Z |} in
  "GR027" = normalize_code "GR27" /\ "GR27" <> "GR027" /\
  exists v, In ("GR27", v) [("GR27", e)] /\
            PyDict.get "GR027" (remapped (fix_registry [("GR27", e)])) = Some v.
Proof.
  intro e.
  apply (fix_registry_changed [("GR27", e)] "GR27" "GR027").
  simpl. left. reflexivity.
Defined.

End FixRegistryMore.

(** ** create_hex_color_registry.py: the inverse registry *)

Section HexMore.
Import HexRegistry PyDictFacts.
Local Open Scope py_scope.

Lemma rgb_to_hex_three (l : list Z) :
  List.length l = 3 ->
  exists r g b, l = [r; g; b] /\
    rgb_to_hex l
    = Ok ("#" ++ format_02x r ++ format_02x g ++ format_02x b)%string.
Proof.
  intro H. destruct l as [| r [| g [| b [| ? ?]]]]; try discriminate H.
  exists r, g, b. split; reflexivity.
Qed.

(** One turn of the loop, on a dictionary: an entry with three channels is
    stored under its key, any other entry is passed over. *)
Lemma hex_step_ok (d : PyDict.dict string) (code : string) (e : ColorEntry) :
  hex_step (Ok d) (code, e)
  = Ok (if (List.length (rgb e) =? 3)%nat
        then match rgb_to_hex (rgb e) with
             | Ok h => PyDict.set h code d
             | Raise _ => d
             end
        else d).
Proof.
  unfold hex_step, bind.
  destruct (List.length (rgb e) =? 3)%nat eqn:E; [| reflexivity].
  apply Nat.eqb_eq in E.
  destruct (rgb_to_hex_three _ E) as (r & g & b & _ & ->). reflexivity.
Qed.

Lemma hex_loop_ok (l : list (string * ColorEntry)) (d : PyDict.dict string) :
  exists out, fold_left hex_step l (Ok d) = Ok out.
Proof.
  revert d. induction l as [| [code e] l IH]; intro d; cbn [fold_left].
  - now exists d.
  - rewrite hex_step_ok. apply IH.
Qed.

(** Later turns of the loop leave a key alone unless one of them stores
    it. *)
Lemma hex_loop_get (l : list (string * ColorEntry)) (d out : PyDict.dict string)
      (h code : string) :
  fold_left hex_step l (Ok d) = Ok out ->
  PyDict.get h d = Some code ->
  (forall c e, In (c, e) l -> List.length (rgb e) = 3 ->
     rgb_to_hex (rgb e) <> Ok h) ->
  PyDict.get h out = Some code.
Proof.
  revert d. induction l as [| [c e] l IH]; intros d Hout Hget Hother.
  - simpl in Hout. inversion Hout; subst. exact Hget.
  - cbn [fold_left] in Hout. rewrite hex_step_ok in Hout.
    apply IH in Hout; [exact Hout | |].
    + destruct (List.length (rgb e) =? 3)%nat eqn:E; [| exact Hget].
      apply Nat.eqb_eq in E.
      destruct (rgb_to_hex (rgb e)) as [h' |] eqn:Hh; [| exact Hget].
      rewrite get_set_other; [exact Hget |].
      intros ->. apply (Hother c e); auto. now left.
    + intros c' e' Hin. apply (Hother c' e'). now right.
Qed.

(** X6. The build of the inverse registry never fails, whatever the
    registry: an entry whose [rgb] has not three channels is passed over,
    and the three channels of any other entry are there to be formatted. *)
Theorem create_hex_color_registry_never_raises
        (registry : PyDict.dict ColorEntry) :
  exists out, create_hex_color_registry registry = Ok out.
Proof. apply hex_loop_ok. Qed.

(** X7. Later entries overwrite earlier ones: the code stored under a key
    is the code of the last entry of the registry, among those with three
    channels, whose colour formats to that key. *)
Theorem create_hex_color_registry_last_wins
        (l1 l2 : list (string * ColorEntry)) (code : string) (e : ColorEntry)
        (h : string) :
  List.length (rgb e) = 3 ->
  rgb_to_hex (rgb e) = Ok h ->
  (forall c e', In (c, e') l2 -> List.length (rgb e') = 3 ->
     rgb_to_hex (rgb e') <> Ok h) ->
  exists out,
    create_hex_color_registry (l1 ++ (code, e) :: l2) = Ok out
    /\ PyDict.get h out = Some code.
Proof.
  intros Hlen Hh Hlast.
  destruct (hex_loop_ok (l1 ++ (code, e) :: l2) PyDict.empty) as [out Hout].
  exists out. split; [exact Hout |].
  unfold create_hex_color_registry, PyDict.items in Hout.
  rewrite fold_left_app in Hout.
  destruct (hex_loop_ok l1 PyDict.empty) as [d1 Hd1].
  rewrite Hd1 in Hout.
  cbn [fold_left] in Hout. rewrite hex_step_ok in Hout.
  apply Nat.eqb_eq in Hlen. rewrite Hlen, Hh in Hout.
  eapply hex_loop_get; [exact Hout | apply get_set_same | exact Hlast].
Qed.

Lemma create_hex_color_registry_last_wins_witness :
  let a := {| file := "yuzu/keycaps/A001.jpg"; rgb := [0; 171; 255]%Z |} in
  let b := {| file := "yuzu/keycaps/B002.jpg"; rgb := [0; 171; 255]%Z |} in
  let c := {| file := "yuzu/keycaps/C003.jpg"; rgb := [1; 2]%Z |} in
  exists out,
    create_hex_color_registry ([("A001", a)] ++ ("B002", b) :: [("C003", c)])
    = Ok out
    /\ PyDict.get "#00abff" out = Some "B002".
Proof.
  intros a b c.
  apply (create_hex_color_registry_last_wins [("A001", a)] [("C003", c)]
           "B002" b "#00abff").
  - reflexivity.
  - reflexivity.
  - intros c' e' [H | []] Hlen. inversion H; subst. discriminate Hlen.
Defined.

Lemma hex_digit_code (n : N) :
  (n < 16)%N ->
  code_point (hex_digit n) = (if (n <? 10)%N then 48 + n else 87 + n)%N.
Proof.
  intro H. unfold hex_digit, code_point.
  destruct (n <? 10)%N; apply N_ascii_embedding; lia.
Qed.

Lemma hex_digit_inj (m n : N) :
  (m < 16)%N -> (n < 16)%N -> hex_digit m = hex_digit n -> m = n.
Proof.
  intros Hm Hn H. apply (f_equal code_point) in H.
  rewrite (hex_digit_code m Hm), (hex_digit_code n Hn) in H.
  destruct (m <? 10)%N eqn:Em, (n <? 10)%N eqn:En;
    try apply N.ltb_lt in Em; try apply N.ltb_ge in Em;
    try apply N.ltb_lt in En; try apply N.ltb_ge in En; lia.
Qed.

(** A byte is written as its two hexadecimal digits. *)
Lemma format_02x_digits (z : Z) :
  (0 <= z < 256)%Z ->
  format_02x z = String (hex_digit (Z.to_N z / 16))
                        (String (hex_digit (Z.to_N z mod 16)) "").
Proof.
  intro H. rewrite <- (Z2Nat.id z) by lia.
  assert (Hn : Z.to_nat z < 256) by lia.
  generalize dependent (Z.to_nat z). clear. intros n Hn.
  do 256 (destruct n as [| n]; [reflexivity |]). lia.
Qed.

Lemma format_02x_inj (z z' : Z) :
  (0 <= z < 256)%Z -> (0 <= z' < 256)%Z ->
  format_02x z = format_02x z' -> z = z'.
Proof.
  intros Hz Hz' H.
  rewrite (format_02x_digits z Hz), (format_02x_digits z' Hz') in H.
  inversion H as [[Hhi Hlo]].
  assert (B : (Z.to_N z < 256)%N) by lia.
  assert (B' : (Z.to_N z' < 256)%N) by lia.
  apply hex_digit_inj in Hhi;
    [| apply N.Div0.div_lt_upper_bound; lia
     | apply N.Div0.div_lt_upper_bound; lia].
  apply hex_digit_inj in Hlo;
    [| apply N.mod_lt; lia | apply N.mod_lt; lia].
  assert (E : Z.to_N z = Z.to_N z').
  { rewrite (N.div_mod (Z.to_N z) 16), (N.div_mod (Z.to_N z') 16) by lia.
    now rewrite Hhi, Hlo. }
  lia.
Qed.

(** X8. Two colours with channels in 0..255 get the same key only when
    they are the same colour: entries collide in the inverse registry only
    when their colours are identical. *)
Theorem rgb_to_hex_injective (r g b r' g' b' : Z) :
  (0 <= r < 256)%Z -> (0 <= g < 256)%Z -> (0 <= b < 256)%Z ->
  (0 <= r' < 256)%Z -> (0 <= g' < 256)%Z -> (0 <= b' < 256)%Z ->
  rgb_to_hex [r; g; b] = rgb_to_hex [r'; g'; b'] ->
  (r, g, b) = (r', g', b').
Proof.
  intros Hr Hg Hb Hr' Hg' Hb' H.
  unfold rgb_to_hex, bind, index in H. simpl in H.
  assert (Er := format_02x_digits r Hr). assert (Eg := format_02x_digits g Hg).
  assert (Eb := format_02x_digits b Hb).
  assert (Er' := format_02x_digits r' Hr').
  assert (Eg' := format_02x_digits g' Hg').
  assert (Eb' := format_02x_digits b' Hb').
  assert (Hrr : format_02x r = format_02x r'
                /\ format_02x g = format_02x g'
                /\ format_02x b = format_02x b').
  { rewrite Er, Eg, Eb, Er', Eg', Eb' in H |- *. simpl in H.
    inversion H. repeat split; congruence. }
  destruct Hrr as (Hr1 & Hg1 & Hb1).
  apply format_02x_inj in Hr1, Hg1, Hb1; auto. congruence.
Qed.

Lemma rgb_to_hex_injective_witness :
  rgb_to_hex [0; 171; 255]%Z = Ok "#00abff"
  /\ (0, 171, 255)%Z = (0, 171, 255)%Z.
Proof.
  split; [reflexivity |].
  apply (rgb_to_hex_injective 0 171 255 0 171 255); try lia. reflexivity.
Defined.

End HexMore.

(** ** build_color_registry.py: the median of the sampled box *)

Section Median.
Import ColorRegistryBuild.
Local Open Scope Z_scope.

Lemma filter_insert_length (p : Z -> bool) (x : Z) (l : list Z) :
  List.length (filter p (insert x l)) = List.length (filter p (x :: l)).
Proof.
  induction l as [| y l IH]; [reflexivity |].
  simpl insert. destruct (x <=? y); [reflexivity |].
  simpl in *. destruct (p y), (p x); simpl in *; lia.
Qed.

Lemma filter_sort_length (p : Z -> bool) (l : list Z) :
  List.length (filter p (sort l)) = List.length (filter p l).
Proof.
  induction l as [| x l IH]; [reflexivity |].
  simpl sort. rewrite filter_insert_length. simpl.
  destruct (p x); simpl; lia.
Qed.

Lemma filter_true_length {A : Type} (l : list A) :
  List.length (filter (fun _ => true) l) = List.length l.
Proof. induction l; simpl; auto. Qed.

Lemma sort_length (l : list Z) : List.length (sort l) = List.length l.
Proof.
  rewrite <- (filter_true_length (sort l)), <- (filter_true_length l).
  apply filter_sort_length.
Qed.

Lemma in_insert (x y : Z) (l : list Z) :
  In y (insert x l) -> y = x \/ In y l.
Proof.
  induction l as [| z l IH]; simpl.
  - intros [H | []]. now left.
  - destruct (x <=? z); simpl.
    + intros [H | H]; auto.
    + intros [H | H]; auto. destruct (IH H); auto.
Qed.


Lemma insert_sorted (x : Z) (l : list Z) :
  StronglySorted Z.le l -> StronglySorted Z.le (insert x l).
Proof.
  induction 1 as [| y l Hs IH Hall]; simpl.
  - repeat constructor.
  - destruct (x <=? y) eqn:E.
    + apply Z.leb_le in E. constructor; [now constructor |].
      constructor; [exact E |].
      eapply Forall_impl; [| exact Hall]. simpl. intros; lia.
    + apply Z.leb_gt in E. constructor; [exact IH |].
      apply Forall_forall. intros z Hz.
      apply in_insert in Hz as [-> | Hz]; [lia |].
      rewrite Forall_forall in Hall. now apply Hall.
Qed.

Lemma sort_sorted (l : list Z) : StronglySorted Z.le (sort l).
Proof.
  induction l as [| x l IH]; simpl; [constructor | now apply insert_sorted].
Qed.

(** In a sorted list, a value below [v] at index [i] has [i + 1] values
    below [v] up to it. *)
Lemma sorted_nth_below (s : list Z) (i : nat) (v : Z) :
  StronglySorted Z.le s -> (i < List.length s)%nat -> nth i s 0 < v ->
  (i < List.length (filter (fun x => (x <? v)%Z) s))%nat.
Proof.
  intro Hs. revert i. induction Hs as [| y s Hs IH Hall]; intros i Hi Hlt.
  - simpl in Hi. lia.
  - assert (Hy : y < v).
    { destruct i as [| i]; simpl in Hlt; [exact Hlt |].
      rewrite Forall_forall in Hall.
      assert (y <= nth i s 0) by (apply Hall, nth_In; simpl in Hi; lia).
      lia. }
    simpl. apply Z.ltb_lt in Hy. rewrite Hy. simpl.
    destruct i as [| i]; [lia |].
    simpl in Hi, Hlt. specialize (IH i ltac:(lia) Hlt). lia.
Qed.

(** In a sorted list, a value above [v] at index [i] has only values
    above [v] after it. *)
Lemma sorted_nth_above (s : list Z) (i : nat) (v : Z) :
  StronglySorted Z.le s -> (i < List.length s)%nat -> v < nth i s 0 ->
  (List.length s - i <= List.length (filter (fun x => (v <? x)%Z) s))%nat.
Proof.
  intro Hs. revert i. induction Hs as [| y s Hs IH Hall]; intros i Hi Hlt.
  - simpl in Hi. lia.
  - destruct i as [| i].
    + simpl in Hlt.
      assert (Hev : Forall (fun x => (v <? x) = true) (y :: s)).
      { constructor; [now apply Z.ltb_lt |].
        eapply Forall_impl; [| exact Hall]. simpl. intros a Ha.
        apply Z.ltb_lt. lia. }
      clear - Hev. induction Hev as [| a l Ha _ IHl]; [simpl; lia |].
      simpl. rewrite Ha. simpl in *. lia.
    + simpl in Hi, Hlt. specialize (IH i ltac:(lia) Hlt).
      simpl. destruct (v <? y); simpl; lia.
Qed.

Lemma filter_split_length (v : Z) (s : list Z) :
  (List.length (filter (fun x => (x <? v)%Z) s)
   + List.length (filter (fun x => (x =? v)%Z) s)
   + List.length (filter (fun x => (v <? x)%Z) s) = List.length s)%nat.
Proof.
  induction s as [| y s IH]; [reflexivity |]. simpl.
  destruct (y <? v) eqn:E1, (y =? v) eqn:E2, (v <? y) eqn:E3; simpl; lia.
Qed.

(** In a sorted list more than half of whose values are [v], the values
    at the middle are [v]. *)
Lemma sorted_nth_majority (s : list Z) (i : nat) (v : Z) :
  StronglySorted Z.le s ->
  (List.length s < 2 * List.length (filter (fun x => (x =? v)%Z) s))%nat ->
  (i < List.length s)%nat ->
  (List.length s <= 2 * (i + 1))%nat -> (2 * i <= List.length s)%nat ->
  nth i s 0 = v.
Proof.
  intros Hs Hmaj Hi Hlo Hhi.
  assert (Hsplit := filter_split_length v s).
  destruct (Z.lt_trichotomy (nth i s 0) v) as [H | [H | H]]; [| exact H |].
  - apply (sorted_nth_below s i v Hs Hi) in H. lia.
  - apply (sorted_nth_above s i v Hs Hi) in H. lia.
Qed.

(** The median of values more than half of which are [v] is [v]. *)
Lemma median_int_majority (xs : list Z) (v : Z) :
  (List.length xs < 2 * List.length (filter (fun x => (x =? v)%Z) xs))%nat ->
  median_int xs = Ok v.
Proof.
  intro Hmaj. unfold median_int. cbv zeta.
  assert (Hs := sort_sorted xs).
  rewrite <- (filter_sort_length _ xs), <- (sort_length xs) in Hmaj.
  generalize dependent (sort xs). clear xs. intros s Hmaj Hs.
  assert (Hle := filter_length_le (fun x => (x =? v)%Z) s).
  destruct (List.length s) as [| n'] eqn:En; [lia |].
  assert (Hdiv := Nat.div_mod_eq (S n') 2).
  assert (Hmod : (S n' mod 2 < 2)%nat) by (apply Nat.mod_upper_bound; lia).
  assert (Hbit : (S n' mod 2)%nat = if Nat.odd (S n') then 1%nat else 0%nat).
  { rewrite <- Nat.bit0_mod, Nat.bit0_odd. now destruct (Nat.odd (S n')). }
  destruct (Nat.odd (S n')).
  - f_equal. apply sorted_nth_majority; auto; lia.
  - rewrite (sorted_nth_majority s (S n' / 2 - 1) v) by (auto; lia).
    rewrite (sorted_nth_majority s (S n' / 2) v) by (auto; lia).
    f_equal. replace (v + v) with (v * 2) by lia.
    apply Z.quot_mul. lia.
Qed.






Lemma count_pixels_channel (c : Z * Z * Z) (arr : list (Z * Z * Z))
      (channel : Z * Z * Z -> Z) :
  (forall p, same_pixel c p = true -> channel p = channel c) ->
  (count_pixels c arr
   <= List.length (filter (fun x => (x =? channel c)%Z) (map channel arr)))%nat.
Proof.
  intro Hch. unfold count_pixels.
  induction arr as [| p arr IH]; simpl; [lia |].
  destruct (same_pixel c p) eqn:E.
  - rewrite (Hch p E), Z.eqb_refl. simpl. lia.
  - destruct (channel p =? channel c); simpl; lia.
Qed.

Lemma same_pixel_channels (c p : Z * Z * Z) :
  same_pixel c p = true ->
  red p = red c /\ green p = green c /\ blue p = blue c.
Proof.
  unfold same_pixel. intro H.
  apply andb_true_iff in H as [H Hb]. apply andb_true_iff in H as [Hr Hg].
  apply Z.eqb_eq in Hr, Hg, Hb. auto.
Qed.

(** X9. The median resists outliers: when more than half of the pixels
    of the sampled box have one colour, [sample_color] returns that
    colour, whatever the other pixels are. *)
Theorem sample_color_majority (image : Image) (c : Z * Z * Z) :
  let arr := region_pixels image
               (SwatchSampler.sample_box (width image) (height image)) in
  (List.length arr < 2 * count_pixels c arr)%nat ->
  sample_color image = Ok c.
Proof.
  intros arr Hmaj. unfold sample_color. fold arr.
  assert (Hr := count_pixels_channel c arr red
                  (fun p H => proj1 (same_pixel_channels c p H))).
  assert (Hg := count_pixels_channel c arr green
                  (fun p H => proj1 (proj2 (same_pixel_channels c p H)))).
  assert (Hb := count_pixels_channel c arr blue
                  (fun p H => proj2 (proj2 (same_pixel_channels c p H)))).
  rewrite (median_int_majority (map red arr) (red c))
    by (rewrite length_map; lia).
  rewrite (median_int_majority (map green arr) (green c))
    by (rewrite length_map; lia).
  rewrite (median_int_majority (map blue arr) (blue c))
    by (rewrite length_map; lia).
  simpl. now destruct c as [[r g] b].
Qed.

Lemma sample_color_majority_witness :
  let image := {| width := 73; height := 26;
                  getpixel := fun x y => if (x =? 70)%Z then (0, 0, 0)
                                         else (200, 60, 60) |} in
  sample_color image = Ok (200, 60, 60).
Proof.
  intro image. apply sample_color_majority. vm_compute. lia.
Defined.



End Median.

(** ** build_color_registry.py: the registry *)

Section BuildRegistry.
Import ColorRegistryBuild CodeNormalizer CodeFacts PyDictFacts.

Lemma span_upper_spec (s u r : string) :
  span_upper s = (u, r) -> s = (u ++ r)%string /\ all_upper u = true.
Proof.
  revert u r. induction s as [| c s IH]; simpl; intros u r H.
  - inversion H; subst. auto.
  - destruct (is_upper c) eqn:Hc.
    + destruct (span_upper s) as [u' r'] eqn:Hs. inversion H; subst.
      destruct (IH u' r eq_refl) as (-> & Hu). simpl. rewrite Hc, Hu. auto.
    + inversion H; subst. auto.
Qed.

Lemma rsplit_dot_last (x t : string) :
  rsplit_dot t = None -> rsplit_dot (x ++ String "." t) = Some (x, t).
Proof.
  intro Ht. induction x as [| c x IH]; simpl.
  - now rewrite Ht.
  - now rewrite IH.
Qed.

(** The stem of a file name that the pattern accepts is one to three
    capitals followed by one to three digits. *)
Lemma color_file_pattern_stem (name : string) :
  color_file_pattern name = true -> code_shape 1 3 (stem name).
Proof.
  unfold color_file_pattern, code_shape.
  destruct (span_upper name) as [u r] eqn:Hu.
  destruct (span_digits r) as [d r'] eqn:Hd.
  apply span_upper_spec in Hu as (-> & Hup).
  apply span_digits_spec in Hd as (-> & Hdig & _).
  intro H. apply andb_true_iff in H as [H Hjpg].
  apply andb_true_iff in H as [Hlu Hld].
  unfold between_1_and_3 in Hlu, Hld.
  apply andb_true_iff in Hlu as [Hu1 Hu3].
  apply andb_true_iff in Hld as [Hd1 Hd3].
  apply Nat.leb_le in Hu1, Hu3, Hd1, Hd3.
  exists u, d. repeat split; auto.
  unfold stem.
  assert (Hstem : exists t, rsplit_dot (u ++ d ++ r')
                            = Some ((u ++ d)%string, t) /\ t <> EmptyString).
  { unfold jpg_dollar in Hjpg. apply orb_true_iff in Hjpg as [E | E];
      apply String.eqb_eq in E; subst r'; rewrite <- append_assoc.
    - exists "jpg". split; [now apply rsplit_dot_last | discriminate].
    - exists ("jpg" ++ String newline "")%string.
      split; [now apply rsplit_dot_last | discriminate]. }
  destruct Hstem as (t & -> & Hne).
  destruct u as [| c u]; [simpl in Hu1; lia |].
  destruct t; [contradiction | reflexivity].
Qed.

(** Every pair of the registry comes from a file of the directory. *)
Lemma build_loop_in (files : list KeycapFile) (acc : PyDict.dict ColorEntry)
      (k : string) (e : ColorEntry) :
  In (k, e) (fold_left build_step files acc) ->
  In (k, e) acc \/
  exists name img r g b,
    In (name, Some img) files /\ color_file_pattern name = true /\
    k = stem name /\ sample_color img = Ok (r, g, b) /\
    e = {| file := ("yuzu/keycaps/" ++ name)%string; rgb := [r; g; b] |}.
Proof.
  revert acc. induction files as [| [name opened] files IH]; intros acc H.
  - now left.
  - cbn [fold_left] in H. destruct (IH _ H) as [H1 | H1].
    + unfold build_step in H1.
      destruct (color_file_pattern name) eqn:Hp; simpl in H1; [| now left].
      destruct opened as [img |]; [| now left].
      destruct (sample_color img) as [[[r g] b] | err] eqn:Hs; [| now left].
      apply in_set in H1 as [H1 | H1]; [| now left].
      inversion H1; subst. right. exists name, img, r, g, b.
      repeat split; auto. now left.
    + right. destruct H1 as (n & img & r & g & b & Hin & Hrest).
      exists n, img, r, g, b. split; [now right | exact Hrest].
Qed.

Lemma build_step_keys (acc : PyDict.dict ColorEntry) (f : KeycapFile)
      (k : string) :
  In k (PyDict.keys acc) -> In k (PyDict.keys (build_step acc f)).
Proof.
  intro H. destruct f as [name opened]. unfold build_step.
  destruct (color_file_pattern name); simpl; [| exact H].
  destruct opened as [img |]; [| exact H].
  destruct (sample_color img) as [[[r g] b] | err]; [| exact H].
  rewrite keys_set. destruct (PyDict.mem _ _); [exact H |].
  apply in_or_app. now left.
Qed.

Lemma build_loop_keys (files : list KeycapFile) (acc : PyDict.dict ColorEntry)
      (k : string) :
  In k (PyDict.keys acc) ->
  In k (PyDict.keys (fold_left build_step files acc)).
Proof.
  revert acc. induction files as [| f files IH]; intros acc H; [exact H |].
  cbn [fold_left]. apply IH. now apply build_step_keys.
Qed.

(** X11. What the registry holds: every entry comes from a file of the
    directory whose name the pattern accepts and that opened; its key is
    the stem of the name, one to three capitals followed by one to three
    digits; its path is the name under [yuzu/keycaps/]; and its [rgb] is
    the three channels that [sample_color] returned. *)
Theorem build_color_registry_entries (files : list KeycapFile)
        (k : string) (e : ColorEntry) :
  In (k, e) (PyDict.items (build_color_registry files)) ->
  exists name img r g b,
    In (name, Some img) files /\ color_file_pattern name = true /\
    k = stem name /\ code_shape 1 3 k /\
    sample_color img = Ok (r, g, b) /\
    file e = ("yuzu/keycaps/" ++ name)%string /\ rgb e = [r; g; b].
Proof.
  intro H. apply build_loop_in in H
    as [[] | (name & img & r & g & b & Hin & Hp & -> & Hs & ->)].
  exists name, img, r, g, b. repeat split; auto.
  now apply color_file_pattern_stem.
Qed.

Lemma build_color_registry_entries_witness :
  let img := {| width := 1; height := 1; getpixel := fun _ _ => (7, 8, 9)%Z |} in
  let e := {| file := "yuzu/keycaps/GR27.jpg"; rgb := [7; 8; 9]%Z |} in
  exists name img' r g b,
    In (name, Some img') [("GR27.jpg", Some img); ("notes.jpg", Some img)]
    /\ color_file_pattern name = true /\ "GR27" = stem name
    /\ code_shape 1 3 "GR27"
    /\ sample_color img' = Ok (r, g, b)
    /\ file e = ("yuzu/keycaps/" ++ name)%string /\ rgb e = [r; g; b].
Proof.
  intros img e.
  apply (build_color_registry_entries
           [("GR27.jpg", Some img); ("notes.jpg", Some img)] "GR27" e).
  simpl. left. reflexivity.
Defined.

(** X12. A file is never the end of the build: one that the pattern
    rejects, that does not open or whose sampling fails is passed over, and
    every file that the pattern accepts, that opens and is sampled has its
    stem among the keys of the registry. *)
Theorem build_color_registry_covers (before after : list KeycapFile)
        (name : string) (img : Image) (c : Z * Z * Z) :
  color_file_pattern name = true ->
  sample_color img = Ok c ->
  In (stem name)
     (PyDict.keys (build_color_registry (before ++ (name, Some img) :: after))).
Proof.
  intros Hp Hs. unfold build_color_registry. rewrite fold_left_app.
  cbn [fold_left]. apply build_loop_keys.
  unfold build_step. rewrite Hp, Hs. simpl. destruct c as [[r g] b].
  rewrite keys_set. destruct (PyDict.mem _ _) eqn:E.
  - now apply mem_true_iff.
  - apply in_or_app. right. now left.
Qed.

Lemma build_color_registry_covers_witness :
  let img := {| width := 1; height := 1; getpixel := fun _ _ => (7, 8, 9)%Z |} in
  In (stem "GR27.jpg")
     (PyDict.keys (build_color_registry
                     ([("A1.jpg", None); ("notes.jpg", Some img)]
                        ++ ("GR27.jpg", Some img) :: []))).
Proof.
  intro img.
  apply (build_color_registry_covers _ _ "GR27.jpg" img (7, 8, 9)%Z);
    reflexivity.
Defined.

End BuildRegistry.

(** ** From the keycap photographs to the palette *)

Section Pipeline.
Import ColorRegistryBuild CodeNormalizer CodeFacts PyDictFacts DesignGenerator.

Lemma normalize_code_one_letter (a : ascii) (d : string) :
  all_digits d = true -> d <> EmptyString ->
  normalize_code (String a d) = String a d.
Proof.
  intros Hd Hne. destruct d as [| c d]; [contradiction |].
  simpl in Hd. apply andb_true_iff in Hd as [Hc _].
  apply digit_not_upper in Hc. unfold normalize_code.
  now rewrite (I_MIS_OCR_RE_second a c d Hc), (CODE_RE_second a c d Hc).
Qed.

Lemma normalize_code_three_letters (a b c : ascii) (d : string) :
  is_upper c = true -> c <> "I"%char ->
  normalize_code (String a (String b (String c d)))
  = String a (String b (String c d)).
Proof.
  intros Hc HI. unfold normalize_code.
  assert (HcI : Ascii.eqb c "I" = false) by now apply Ascii.eqb_neq.
  assert (Hnd : is_digit c = false).
  { destruct (is_digit c) eqn:E; [| reflexivity].
    apply digit_not_upper in E. congruence. }
  now rewrite (I_MIS_OCR_RE_third a b c d HcI), (CODE_RE_third a b c d Hnd).
Qed.

(** Two capitals, an [I] and a digit run: the [I] becomes a [1] and heads
    the run, which is then padded. *)
Lemma normalize_code_letter_I (a b : ascii) (d : string) :
  is_upper a = true -> is_upper b = true ->
  all_digits d = true -> d <> EmptyString ->
  normalize_code (String a (String b (String "I" d)))
  = String a (String b (zfill 3 (String "1" d))).
Proof.
  intros Ha Hb Hd Hne.
  assert (HI : I_MIS_OCR_RE (String a (String b (String "I" d)))
               = Some (String a (String b ""), d)).
  { unfold I_MIS_OCR_RE. rewrite Ha, Hb. simpl.
    now rewrite (digits_dollar_run d Hd Hne). }
  unfold normalize_code. rewrite HI.
  change (String a (String b "") ++ "1" ++ d)%string
    with (String a (String b (String "1" d))).
  assert (Hd1 : all_digits (String "1" d) = true) by (simpl; exact Hd).
  rewrite (CODE_RE_run a b (String "1" d) Ha Hb Hd1) by discriminate.
  destruct (3 <=? String.length (String "1" d))%nat eqn:Hlen.
  - apply Nat.leb_le in Hlen. now rewrite zfill_long.
  - apply Nat.leb_gt in Hlen.
    now rewrite (format_03d_int _ Hd1) by (discriminate || exact Hlen).
Qed.

Lemma zfill_3_length (d : string) :
  String.length (zfill 3 d) = Nat.max 3 (String.length d).
Proof. unfold zfill. rewrite length_app, length_zeros. lia. Qed.

(** X13. The codes of the palette: after the registry of the photographs
    has gone through the normalisation, every code is one to three capitals
    followed by one to four digits, and a code with two capitals has at
    least three digits. A code with one or three capitals may keep a run of
    one or two digits, and the fourth digit comes from an [I] read as 1. *)
Theorem palette_code_shape (files : list KeycapFile) (k : string) :
  In k (PyDict.keys (remapped (fix_registry (build_color_registry files)))) ->
  exists u d : string,
    k = (u ++ d)%string /\ all_upper u = true /\
    1 <= String.length u <= 3 /\ all_digits d = true /\
    1 <= String.length d <= 4 /\
    (String.length u = 2 -> 3 <= String.length d).
Proof.
  intro H. apply in_map_iff in H as ([k' v] & Hk & Hin). simpl in Hk.
  subst k'. apply fix_loop_in in Hin as [[] | (k0 & Hin & ->)].
  apply build_loop_in in Hin
    as [[] | (name & img & r0 & g0 & b0 & _ & Hp & -> & _)].
  apply color_file_pattern_stem in Hp
    as (u & d & -> & Hu & Hlu & Hd & Hld).
  assert (Hne : d <> EmptyString) by (destruct d; [simpl in Hld; lia | discriminate]).
  destruct u as [| a [| b [| c [| ? ?]]]]; simpl in Hlu; try lia.
  - exists (String a ""), d. simpl.
    rewrite normalize_code_one_letter by assumption.
    repeat split; auto; simpl; lia.
  - simpl in Hu. rewrite andb_true_r in Hu.
    apply andb_true_iff in Hu as [Ha Hb].
    exists (String a (String b "")), (zfill 3 d). simpl.
    rewrite normalize_code_two_letters by assumption.
    assert (Hz := zfill_3_length d).
    repeat split; simpl; auto using zfill_all_digits; try lia.
    now rewrite Ha, Hb.
  - assert (Hu' := Hu). simpl in Hu'. rewrite andb_true_r in Hu'.
    apply andb_true_iff in Hu' as [Ha Hbc].
    apply andb_true_iff in Hbc as [Hb Hc].
    destruct (ascii_dec c "I") as [-> | HI].
    + exists (String a (String b "")), (zfill 3 (String "1" d)). simpl.
      rewrite normalize_code_letter_I by assumption.
      assert (Hz := zfill_3_length (String "1" d)).
      change (String.length (String "1" d)) with (S (String.length d)) in Hz.
      repeat split; simpl; auto using zfill_all_digits; try lia;
        try (now rewrite Ha, Hb);
        try (apply zfill_all_digits; simpl; exact Hd).
    + exists (String a (String b (String c ""))), d. simpl.
      rewrite normalize_code_three_letters by assumption.
      repeat split; auto; simpl; lia.
Qed.

Lemma palette_code_shape_witness :
  let img := {| width := 1; height := 1; getpixel := fun _ _ => (7, 8, 9)%Z |} in
  remapped (fix_registry (build_color_registry
              [("A5.jpg", Some img); ("GR27.jpg", Some img);
               ("GRI123.jpg", Some img)]))
  = [("A5", {| file := "yuzu/keycaps/A5.jpg"; rgb := [7; 8; 9]%Z |});
     ("GR027", {| file := "yuzu/keycaps/GR27.jpg"; rgb := [7; 8; 9]%Z |});
     ("GR1123", {| file := "yuzu/keycaps/GRI123.jpg"; rgb := [7; 8; 9]%Z |})]
  /\ exists u d : string,
       "GR1123" = (u ++ d)%string /\ all_upper u = true /\
       1 <= String.length u <= 3 /\ all_digits d = true /\
       1 <= String.length d <= 4 /\
       (String.length u = 2 -> 3 <= String.length d).
Proof.
  intro img. split; [reflexivity |].
  apply (palette_code_shape
           [("A5.jpg", Some img); ("GR27.jpg", Some img);
            ("GRI123.jpg", Some img)]).
  simpl. right. right. left. reflexivity.
Defined.



End Pipeline.

(** ** build_key_name_registry.py *)

Section KeyNameRegistry.
Import KeyNames PyDictFacts.

Lemma get_append_to (key_name keycode n : string)
      (dc : PyDict.dict (list string)) :
  PyDict.get n (append_to key_name keycode dc)
  = if String.eqb key_name n
    then Some (match PyDict.get n dc with Some l => l | None => [] end
               ++ [keycode])
    else PyDict.get n dc.
Proof.
  unfold append_to. destruct (String.eqb key_name n) eqn:E.
  - apply String.eqb_eq in E. subst. apply get_set_same.
  - apply String.eqb_neq in E. now apply get_set_other.
Qed.

Lemma check_loop_get (l : list (string * Geometry.KeyEntry))
      (dc : PyDict.dict (list string)) (n : string) :
  PyDict.get n (fold_left check_step l dc)
  = merged (PyDict.get n dc) (keycodes_named n l).
Proof.
  unfold merged.
  revert dc. induction l as [| [keycode data] l IH]; intro dc.
  - simpl. destruct (PyDict.get n dc); [now rewrite app_nil_r | reflexivity].
  - cbn [fold_left]. rewrite IH. unfold check_step, keycodes_named.
    simpl. destruct (truthy_label data) as [m |]; [| reflexivity].
    rewrite get_append_to. destruct (String.eqb m n); [| reflexivity].
    simpl. destruct (PyDict.get n dc) as [old |]; simpl.
    + now rewrite <- app_assoc.
    + reflexivity.
Qed.

Lemma check_loop_wf (l : list (string * Geometry.KeyEntry))
      (dc : PyDict.dict (list string)) :
  PyDict.wf dc -> PyDict.wf (fold_left check_step l dc).
Proof.
  revert dc. induction l as [| [keycode data] l IH]; intros dc H; [exact H |].
  cbn [fold_left]. apply IH. unfold check_step.
  destruct (truthy_label data); [| exact H]. now apply wf_set.
Qed.

Lemma name_loop_spec (items : list (string * list string))
      (acc : PyDict.dict NameValue) :
  NoDup (PyDict.keys acc ++ PyDict.keys items) ->
  fold_left name_step items acc
  = acc ++ map (fun kv => (fst kv, name_value (snd kv))) items.
Proof.
  revert acc. induction items as [| [n ks] items IH]; intros acc Hnd.
  - simpl. now rewrite app_nil_r.
  - simpl in Hnd. apply nodup_snoc in Hnd as [Hnew Hnd].
    cbn [fold_left].
    assert (Hstep : name_step acc (n, ks) = acc ++ [(n, name_value ks)]).
    { unfold name_step, name_value.
      destruct ks as [| k [| ? ?]]; now rewrite set_new. }
    rewrite Hstep, IH.
    + now rewrite <- app_assoc.
    + unfold PyDict.keys in *. now rewrite map_app.
Qed.

Lemma get_map_values {A B : Type} (f : A -> B) (d : PyDict.dict A)
      (n : string) :
  PyDict.get n (map (fun kv => (fst kv, f (snd kv))) d)
  = option_map f (PyDict.get n d).
Proof.
  induction d as [| [k v] d IH]; simpl; [reflexivity |].
  destruct (String.eqb n k); [reflexivity | exact IH].
Qed.

(** X15. The name registry, name by name: a name that no key carries is
    absent; a name that one key carries maps to the keycode of that key; a
    name that several keys carry maps to the list of their keycodes, in the
    order of the key registry. A key whose label is missing or empty is
    under no name. *)
Theorem build_key_name_registry_spec
        (key_registry : PyDict.dict Geometry.KeyEntry) (n : string) :
  PyDict.get n (build_key_name_registry key_registry)
  = match keycodes_named n (PyDict.items key_registry) with
    | [] => None
    | [keycode] => Some (One keycode)
    | keycodes => Some (Many keycodes)
    end.
Proof.
  unfold build_key_name_registry, PyDict.items.
  rewrite name_loop_spec.
  - simpl. rewrite get_map_values.
    unfold duplicate_check_of, PyDict.items. rewrite check_loop_get.
    simpl. now destruct (keycodes_named n key_registry) as [| k [| ? ?]].
  - simpl. apply check_loop_wf. constructor.
Qed.

Lemma in_get {V : Type} (d : PyDict.dict V) (k : string) (v : V) :
  PyDict.wf d -> (In (k, v) d <-> PyDict.get k d = Some v).
Proof.
  unfold PyDict.wf. induction d as [| [k' v'] d IH]; simpl; intro Hnd.
  - split; [contradiction | discriminate].
  - inversion Hnd as [| ? ? Hnew Hrest]; subst.
    destruct (String.eqb k k') eqn:E.
    + apply String.eqb_eq in E. subst k'. split.
      * intros [H | H]; [now inversion H |].
        exfalso. apply Hnew. apply in_map_iff. exists (k, v). auto.
      * intro H. inversion H. now left.
    + apply String.eqb_neq in E. rewrite <- (IH Hrest). split.
      * intros [H | H]; [inversion H; congruence | exact H].
      * now right.
Qed.

(** X16. The names reported as duplicates are the names that at least two
    keys carry, each with the keycodes of all those keys. *)
Theorem duplicates_spec (key_registry : PyDict.dict Geometry.KeyEntry)
        (n : string) (keycodes : list string) :
  In (n, keycodes) (duplicates key_registry) <->
  keycodes = keycodes_named n (PyDict.items key_registry)
  /\ 1 < List.length keycodes.
Proof.
  unfold duplicates, PyDict.items. rewrite filter_In. simpl.
  rewrite Nat.ltb_lt.
  rewrite (in_get (duplicate_check_of key_registry) n keycodes)
    by (apply check_loop_wf; constructor).
  unfold duplicate_check_of, PyDict.items. rewrite check_loop_get. simpl.
  split.
  - intros [H Hlen]. split; [| exact Hlen].
    destruct (keycodes_named n key_registry); [discriminate | congruence].
  - intros [-> Hlen]. split; [| exact Hlen].
    destruct (keycodes_named n key_registry); [simpl in Hlen; lia | reflexivity].
Qed.

End KeyNameRegistry.

(** ** generate_design_from_image.py: the document and its codes *)

Section DesignMore.
Import DesignGenerator PyDictFacts.
Variable Image : Type.
Variable width : Image -> Z.
Variable crop : Image -> BBox -> Image.
Variable dominant_color : Image -> result RGB.

(** Every code that the colour loop stores is a code of the palette. *)
Lemma color_loop_codes (img : Image) (palette : PyDict.dict ColorEntry)
      (items : list (string * BBox)) (acc out : PyDict.dict string) :
  color_loop Image crop dominant_color img palette items acc = Ok out ->
  (forall k code, In (k, code) acc -> In code (PyDict.keys palette)) ->
  forall k code, In (k, code) out -> In code (PyDict.keys palette).
Proof.
  revert acc. induction items as [| [key_id bbox] items IH]; simpl;
    intros acc H Hacc.
  - inversion H; subst. exact Hacc.
  - destruct (dominant_color (crop img bbox)) as [dom |]; [| discriminate H].
    simpl in H.
    destruct (nearest_yuzu_color dom palette) as [code |] eqn:Hn;
      [| discriminate H].
    simpl in H. apply (IH _ H).
    intros k c Hin. apply in_set in Hin as [Hin | Hin].
    + inversion Hin; subst.
      apply nearest_yuzu_color_spec in Hn as (l1 & entry & l2 & d & -> & _).
      unfold PyDict.keys. rewrite map_app. apply in_or_app. right. now left.
    + now apply (Hacc k).
Qed.

(** X17. The design document is the template with one field set: every
    other field of the template is in the document with the value it had,
    and the fields keep their order, [customizedColor] coming last when the
    template had none. *)
Theorem main_keeps_template (registry : PyDict.dict Geometry.KeyEntry)
        (palette : PyDict.dict ColorEntry) (base_json doc : Document)
        (img : Image) :
  main Image width crop dominant_color registry palette base_json img = Ok doc ->
  (forall name, name <> "customizedColor" ->
     PyDict.get name doc = PyDict.get name base_json)
  /\ PyDict.keys doc
     = if PyDict.mem "customizedColor" base_json
       then PyDict.keys base_json
       else PyDict.keys base_json ++ ["customizedColor"].
Proof.
  intro H. unfold main, bind in H.
  destruct (build_keyboard_bbox_map _ _); [| discriminate H].
  destruct (color_loop _ _ _ _ _ _ _); [| discriminate H].
  inversion H; subst doc. split.
  - intros name Hne. apply get_set_other. congruence.
  - apply keys_set.
Qed.

(** X18. The document names no colour that the palette has not: every
    code of [customizedColor] is a code of the palette. *)
Theorem main_codes_from_palette (registry : PyDict.dict Geometry.KeyEntry)
        (palette : PyDict.dict ColorEntry) (base_json doc : Document)
        (img : Image) (customized_colors : PyDict.dict string)
        (key_id code : string) :
  main Image width crop dominant_color registry palette base_json img = Ok doc ->
  customizedColor doc = Some customized_colors ->
  In (key_id, code) (PyDict.items customized_colors) ->
  In code (PyDict.keys palette).
Proof.
  intros H Hcc Hin. unfold main, bind in H.
  destruct (build_keyboard_bbox_map _ _) as [bbox_map |]; [| discriminate H].
  destruct (color_loop _ _ _ _ _ _ _) as [cc |] eqn:Hloop; [| discriminate H].
  inversion H; subst doc.
  unfold customizedColor in Hcc. rewrite get_set_same in Hcc.
  inversion Hcc; subst cc.
  eapply color_loop_codes; [exact Hloop | | exact Hin].
  intros k c [].
Qed.

End DesignMore.

Lemma main_keeps_template_witness :
  let key := {| Geometry.label := None;
                Geometry.x_u := PyFloat.of_Z 0; Geometry.y_u := PyFloat.of_Z 0;
                Geometry.width_u := PyFloat.of_Z 1;
                Geometry.height_u := PyFloat.of_Z 1;
                Geometry.left_u := PyFloat.of_Z 0;
                Geometry.top_u := PyFloat.of_Z 0;
                Geometry.right_u := PyFloat.of_Z 1;
                Geometry.bottom_u := PyFloat.of_Z 1 |} in
  let palette := [("A001", {| file := "yuzu/keycaps/A001.jpg"; rgb := [0; 0; 0]%Z |})] in
  let base_json := [("name", DesignGenerator.Other "base")] in
  let doc := [("name", DesignGenerator.Other "base");
              ("customizedColor", DesignGenerator.Colors [("K1", "A001")])] in
  (forall name, name <> "customizedColor" ->
     PyDict.get name doc = PyDict.get name base_json)
  /\ PyDict.keys doc = ["name"; "customizedColor"].
Proof.
  intros key palette base_json doc.
  apply (main_keeps_template Z (fun w => w) (fun img _ => img)
           (fun _ => Ok (10, 10, 10)%Z) [("K1", key)] palette base_json doc
           200%Z).
  reflexivity.
Defined.

Lemma main_codes_from_palette_witness :
  let key := {| Geometry.label := None;
                Geometry.x_u := PyFloat.of_Z 0; Geometry.y_u := PyFloat.of_Z 0;
                Geometry.width_u := PyFloat.of_Z 1;
                Geometry.height_u := PyFloat.of_Z 1;
                Geometry.left_u := PyFloat.of_Z 0;
                Geometry.top_u := PyFloat.of_Z 0;
                Geometry.right_u := PyFloat.of_Z 1;
                Geometry.bottom_u := PyFloat.of_Z 1 |} in
  let palette := [("A001", {| file := "yuzu/keycaps/A001.jpg"; rgb := [0; 0; 0]%Z |})] in
  In "A001" (PyDict.keys palette).
Proof.
  intros key palette.
  apply (main_codes_from_palette Z (fun w => w) (fun img _ => img)
           (fun _ => Ok (10, 10, 10)%Z) [("K1", key)] palette
           [("name", DesignGenerator.Other "base")]
           [("name", DesignGenerator.Other "base");
            ("customizedColor", DesignGenerator.Colors [("K1", "A001")])]
           200%Z [("K1", "A001")] "K1" "A001").
  - reflexivity.
  - reflexivity.
  - simpl. left. reflexivity.
Defined.

Section NearestMore.
Import DesignGenerator.
Local Open Scope Z_scope.







End NearestMore.

(** ** generate_design_from_image.py: the bounding boxes *)

Section BBoxes.
Import DesignGenerator PyFloat PyDictFacts.
Local Open Scope Q_scope.

(** The running maximum over numbers bounds them all. *)
Lemma fold_max2_fin (xs : list t) (q : Q) :
  Forall (fun a => is_finite a = true) xs ->
  exists m, fold_left max2 xs (Fin q) = Fin m /\ q <= m /\
            forall x, In (Fin x) xs -> x <= m.
Proof.
  intro Hfin. revert q.
  induction Hfin as [| a xs Ha _ IH]; intro q; simpl.
  - exists q. repeat split; auto using Qle_refl. intros x [].
  - destruct a as [x | | |]; try discriminate Ha.
    unfold max2 at 2. simpl. destruct (Qle_bool x q) eqn:Hle; simpl.
    + apply Qle_bool_iff in Hle.
      destruct (IH q) as (m & -> & Hqm & Hall).
      exists m. repeat split; auto.
      intros y [Hy | Hy]; [| now apply Hall].
      inversion Hy; subst. now apply Qle_trans with q.
    + assert (Hlt : q < x).
      { apply Qnot_le_lt. intro Hc. apply Qle_bool_iff in Hc. congruence. }
      destruct (IH x) as (m & -> & Hxm & Hall).
      exists m. repeat split; auto.
      * apply Qle_trans with x; auto using Qlt_le_weak.
      * intros y [Hy | Hy]; [| now apply Hall].
        inversion Hy; subst. exact Hxm.
Qed.

(** [int] of a number that is not negative is its integer part. *)
Lemma trunc_floor (q : Q) :
  0 <= q -> trunc (Fin q) = Ok (Qround.Qfloor q).
Proof.
  intro H. unfold trunc, Qround.Qfloor. destruct q as [n d]. simpl. f_equal.
  apply Z.quot_div_nonneg; [| reflexivity].
  unfold Qle in H. simpl in H. lia.
Qed.

Lemma to_px_floor (a p : Q) :
  0 <= a * p -> to_px (Fin a) (Fin p) = Ok (Qround.Qfloor (a * p)).
Proof.
  intro H. unfold to_px, mul. rewrite trunc_floor.
  - f_equal. apply Qround.Qfloor_comp, Qred_correct.
  - now rewrite Qred_correct.
Qed.

(** The boxes of the result are those of the keys. *)
Lemma bbox_loop_in (px_per_u : t) (items : list (string * Geometry.KeyEntry))
      (acc out : PyDict.dict BBox) (k : string) (bb : BBox) :
  bbox_loop px_per_u items acc = Ok out ->
  In (k, bb) out ->
  In (k, bb) acc \/
  exists key x0 y0 x1 y1,
    In (k, key) items /\ bb = (x0, y0, x1, y1) /\
    to_px (Geometry.left_u key) px_per_u = Ok x0 /\
    to_px (Geometry.top_u key) px_per_u = Ok y0 /\
    to_px (Geometry.right_u key) px_per_u = Ok x1 /\
    to_px (Geometry.bottom_u key) px_per_u = Ok y1.
Proof.
  revert acc. induction items as [| [key_id key] items IH]; simpl;
    intros acc H Hin.
  - inversion H; subst. now left.
  - destruct (to_px (Geometry.left_u key) px_per_u) as [x0 |] eqn:E0;
      [| discriminate H].
    destruct (to_px (Geometry.top_u key) px_per_u) as [y0 |] eqn:E1;
      [| discriminate H].
    destruct (to_px (Geometry.right_u key) px_per_u) as [x1 |] eqn:E2;
      [| discriminate H].
    destruct (to_px (Geometry.bottom_u key) px_per_u) as [y1 |] eqn:E3;
      [| discriminate H].
    simpl in H. destruct (IH _ H Hin) as [Hacc | Hrest].
    + apply in_set in Hacc as [Hacc | Hacc]; [| now left].
      inversion Hacc; subst. right.
      exists key, x0, y0, x1, y1. repeat split; auto.
    + right. destruct Hrest as (key' & a & b & c & d & Hk & Hrest).
      exists key', a, b, c, d. split; [now right | exact Hrest].
Qed.

(** X20. The boxes fit the width of the image: for a registry whose keys
    have [0 <= left_u <= right_u], every bounding box has
    [0 <= x0 <= x1 <= image.width]. (The height of the image is never
    read.) *)
Theorem bbox_inside_width (image_width : Z)
        (registry : PyDict.dict Geometry.KeyEntry)
        (bbox_map : PyDict.dict BBox) :
  (0 <= image_width)%Z ->
  (forall k e, In (k, e) (PyDict.items registry) ->
     exists l r, Geometry.left_u e = Fin l /\ Geometry.right_u e = Fin r /\
                 0 <= l /\ l <= r) ->
  build_keyboard_bbox_map image_width registry = Ok bbox_map ->
  forall k x0 y0 x1 y1,
    In (k, (x0, y0, x1, y1)) (PyDict.items bbox_map) ->
    (0 <= x0 /\ x0 <= x1 /\ x1 <= image_width)%Z.
Proof.
  intros Hw Hreg H k x0 y0 x1 y1 Hin.
  unfold build_keyboard_bbox_map in H.
  destruct (max_of (map Geometry.right_u (PyDict.values registry)))
    as [total |] eqn:Hmax; [| discriminate H].
  simpl in H.
  (* the total width is a number that bounds every [right_u] *)
  assert (Htotal : exists tq, total = Fin tq /\
            forall k e r, In (k, e) registry -> Geometry.right_u e = Fin r ->
                          r <= tq).
  { unfold max_of, PyDict.values in Hmax.
    destruct registry as [| [k0 e0] rest] eqn:Hr; [discriminate Hmax |].
    simpl in Hmax. inversion Hmax as [Hfold]. clear Hmax.
    destruct (Hreg k0 e0 (or_introl eq_refl)) as (l0 & r0 & _ & Hr0 & _).
    rewrite Hr0 in *.
    assert (Hfin : Forall (fun a => is_finite a = true)
                          (map Geometry.right_u (map snd rest))).
    { apply Forall_forall. intros a Ha.
      apply in_map_iff in Ha as (e & <- & He).
      apply in_map_iff in He as ([k' e'] & <- & Hin').
      destruct (Hreg k' e' (or_intror Hin')) as (l & r & _ & Hr' & _).
      simpl. now rewrite Hr'. }
    destruct (fold_max2_fin _ r0 Hfin) as (m & Hm & Hr0m & Hall).
    exists m. split; [congruence |].
    intros k' e' r [Heq | Hin'] Hright.
    - inversion Heq; subst. rewrite Hr0 in Hright. inversion Hright; subst.
      exact Hr0m.
    - apply Hall. rewrite <- Hright.
      apply in_map. apply in_map_iff. exists (k', e'). auto. }
  destruct Htotal as (tq & -> & Hbound).
  unfold div in H. destruct (is_zero (Fin tq)) eqn:Hz; [discriminate H |].
  unfold bind, of_Z in H. unfold is_zero in Hz.
  assert (Hnz : ~ tq == 0).
  { intro Hc. apply Qeq_bool_iff in Hc. congruence. }
  apply bbox_loop_in with (k := k) (bb := (x0, y0, x1, y1)) in H;
    [| exact Hin].
  destruct H as [[] | (key & a & b & c & d & Hk & Hbb & Hx0 & _ & Hx1 & _)].
  inversion Hbb; subst a b c d. clear Hbb.
  destruct (Hreg k key Hk) as (l & r & Hl & Hr & Hl0 & Hlr).
  rewrite Hl in Hx0. rewrite Hr in Hx1.
  assert (Hrt : r <= tq) by (apply (Hbound k key r Hk Hr)).
  assert (Htpos : 0 < tq).
  { apply Qle_lteq in Hrt. assert (0 <= tq) by (apply Qle_trans with r;
      [apply Qle_trans with l; assumption | apply Qle_lteq, Hrt]).
    apply Qle_lteq in H as [H | H]; [exact H |]. exfalso. apply Hnz.
    now symmetry. }
  set (p := Qred (inject_Z image_width / tq)) in *.
  assert (Hp : p == inject_Z image_width / tq) by apply Qred_correct.
  assert (Hp0 : 0 <= p).
  { rewrite Hp. apply Qle_shift_div_l; [exact Htpos |].
    rewrite Qmult_0_l. change 0 with (inject_Z 0). now rewrite <- Zle_Qle. }
  assert (Hlp : 0 <= l * p) by now apply Qmult_le_0_compat.
  assert (Hlrp : l * p <= r * p) by now apply Qmult_le_compat_r.
  assert (Hrp : r * p <= inject_Z image_width).
  { apply Qle_trans with (tq * p); [now apply Qmult_le_compat_r |].
    rewrite Hp. rewrite Qmult_div_r by exact Hnz. apply Qle_refl. }
  rewrite to_px_floor in Hx0 by exact Hlp.
  rewrite to_px_floor in Hx1 by (now apply Qle_trans with (l * p)).
  assert (H0 : (0 <= Qround.Qfloor (l * p))%Z).
  { change 0%Z with (Qround.Qfloor 0). now apply Qround.Qfloor_resp_le. }
  assert (H1 : (Qround.Qfloor (l * p) <= Qround.Qfloor (r * p))%Z)
    by now apply Qround.Qfloor_resp_le.
  assert (H2 : (Qround.Qfloor (r * p) <= image_width)%Z).
  { rewrite <- (Qround.Qfloor_Z image_width).
    now apply Qround.Qfloor_resp_le. }
  remember (Qround.Qfloor (l * p)) as f0.
  remember (Qround.Qfloor (r * p)) as f1.
  injection Hx0 as <-. injection Hx1 as <-. auto.
Qed.

End BBoxes.

Lemma bbox_inside_width_witness :
  let key l r := {| Geometry.label := None;
                    Geometry.x_u := PyFloat.of_Z l; Geometry.y_u := PyFloat.of_Z 0;
                    Geometry.width_u := PyFloat.of_Z 1;
                    Geometry.height_u := PyFloat.of_Z 1;
                    Geometry.left_u := PyFloat.of_Z l;
                    Geometry.top_u := PyFloat.of_Z 0;
                    Geometry.right_u := PyFloat.of_Z r;
                    Geometry.bottom_u := PyFloat.of_Z 1 |} in
  let registry := [("K1", key 0 1); ("K2", key 1 3)]%Z in
  DesignGenerator.build_keyboard_bbox_map 200 registry
  = Ok [("K1", (0, 0, 66, 66)); ("K2", (66, 0, 200, 66))]%Z
  /\ forall k x0 y0 x1 y1,
       In (k, (x0, y0, x1, y1))
          [("K1", (0, 0, 66, 66)); ("K2", (66, 0, 200, 66))]%Z ->
       (0 <= x0 /\ x0 <= x1 /\ x1 <= 200)%Z.
Proof.
  intros key registry. split; [reflexivity |].
  apply (bbox_inside_width 200 registry); [lia | | reflexivity].
  intros k e [H | [H | []]]; inversion H; subst.
  - exists 0%Q, 1%Q. repeat split; discriminate.
  - exists 1%Q, 3%Q. repeat split; discriminate.
Defined.

Section BBoxErrors.
Import DesignGenerator PyFloat.



End BBoxErrors.

(** ** build_key_position_registry.py: reading a position *)

Section Position.
Import Geometry FloatParse Layout.

(** [float] raises nothing but [ValueError]. *)
Lemma float_raises (s : string) (e : exn) :
  float s = Raise e -> e = ValueError.
Proof.
  unfold float. destruct (drop_underscores false (strip s)) as [s1 |];
    [| intro H; now inversion H].
  destruct (take_sign s1) as [negative body].
  destruct (parse_decimal body); [discriminate |].
  destruct (parse_special body); [discriminate |].
  intro H. now inversion H.
Qed.

Lemma token_char_props (c : ascii) :
  token_char c = true ->
  is_space c = false /\ Ascii.eqb c "_" = false.
Proof.
  unfold token_char. intro H. apply orb_true_iff in H as [H | H];
    [apply orb_true_iff in H as [H | H] |].
  - apply is_digit_cases in H. simpl in H.
    repeat (destruct H as [<- | H]; [split; reflexivity |]). contradiction.
  - apply Ascii.eqb_eq in H. subst. split; reflexivity.
  - apply Ascii.eqb_eq in H. subst. split; reflexivity.
Qed.

Lemma rstrip_token (s : string) : all_token_chars s = true -> rstrip s = s.
Proof.
  induction s as [| c s IH]; simpl; [reflexivity |].
  intro H. apply andb_true_iff in H as [Hc Hs].
  rewrite (IH Hs). destruct s; [| reflexivity].
  now rewrite (proj1 (token_char_props c Hc)).
Qed.

Lemma strip_token (s : string) : all_token_chars s = true -> strip s = s.
Proof.
  intro H. unfold strip.
  assert (Hl : lstrip s = s).
  { destruct s as [| c s]; [reflexivity |]. simpl in *.
    apply andb_true_iff in H as [Hc _].
    now rewrite (proj1 (token_char_props c Hc)). }
  rewrite Hl. now apply rstrip_token.
Qed.

Lemma drop_underscores_token (s : string) (prev : bool) :
  all_token_chars s = true -> drop_underscores prev s = Some s.
Proof.
  revert prev. induction s as [| c s IH]; simpl; intros prev H;
    [reflexivity |].
  apply andb_true_iff in H as [Hc Hs].
  rewrite (proj2 (token_char_props c Hc)), (IH _ Hs). reflexivity.
Qed.

Lemma all_digits_token (d : string) :
  all_digits d = true -> all_token_chars d = true.
Proof.
  induction d as [| c d IH]; simpl; [reflexivity |].
  intro H. apply andb_true_iff in H as [Hc Hd].
  unfold token_char. now rewrite Hc, (IH Hd).
Qed.

Lemma all_token_chars_app (s r : string) :
  all_token_chars (s ++ r) = all_token_chars s && all_token_chars r.
Proof.
  induction s as [| c s IH]; simpl; [reflexivity |].
  rewrite IH. apply andb_assoc.
Qed.

Lemma span_digits_all (d : string) :
  all_digits d = true -> span_digits d = (d, EmptyString).
Proof.
  induction d as [| c d IH]; simpl; [reflexivity |].
  intro H. apply andb_true_iff in H as [Hc Hd]. now rewrite Hc, (IH Hd).
Qed.

(** A digit run, or two of them around a point, is a number for
    [parse_decimal]. *)
Lemma parse_decimal_run (d1 : string) :
  all_digits d1 = true -> d1 <> EmptyString ->
  exists q, parse_decimal d1 = Some q.
Proof.
  intros Hd Hne. unfold parse_decimal.
  rewrite (span_digits_all d1 Hd). rewrite append_empty_r.
  destruct d1; [contradiction |]. simpl. eexists. reflexivity.
Qed.

Lemma parse_decimal_point (d1 d2 : string) :
  all_digits d1 = true -> d1 <> EmptyString -> all_digits d2 = true ->
  exists q, parse_decimal (d1 ++ String "." d2) = Some q.
Proof.
  intros Hd1 Hne Hd2. unfold parse_decimal.
  rewrite (span_digits_run d1 (String "." d2) Hd1 eq_refl).
  change (Ascii.eqb "." ".") with true. cbv iota.
  rewrite (span_digits_all d2 Hd2).
  destruct d1; [contradiction |]. simpl. eexists. reflexivity.
Qed.

(** What [number_at] returns: a digit run, or two around a point. *)
Lemma number_at_shape (s : string) :
  starts_with_digit s = true ->
  exists d1, all_digits d1 = true /\ d1 <> EmptyString /\
    (number_at s = d1 \/
     exists d2, all_digits d2 = true /\
                number_at s = (d1 ++ String "." d2)%string).
Proof.
  intro Hs. unfold number_at.
  destruct (span_digits s) as [d1 r] eqn:Hsp.
  assert (Hne : d1 <> EmptyString).
  { destruct s as [| c s]; [discriminate Hs |]. simpl in Hs, Hsp.
    rewrite Hs in Hsp. destruct (span_digits s). inversion Hsp. discriminate. }
  apply span_digits_spec in Hsp as (-> & Hd1 & _).
  exists d1. repeat split; auto.
  destruct r as [| c r']; [now left |].
  destruct (Ascii.eqb c "."); [| now left].
  destruct (span_digits r') as [d2 rest] eqn:Hsp2.
  apply span_digits_spec in Hsp2 as (_ & Hd2 & _).
  destruct d2; [now left |]. right. eexists. split; [exact Hd2 |].
  reflexivity.
Qed.

Lemma float_number (t : string) :
  (exists d1, all_digits d1 = true /\ d1 <> EmptyString /\
     (t = d1 \/
      exists d2, all_digits d2 = true /\ t = (d1 ++ String "." d2)%string)) ->
  (exists q, float t = Ok (PyFloat.Fin q))
  /\ (exists q, float (String "-" t) = Ok (PyFloat.Fin q)).
Proof.
  intros (d1 & Hd1 & Hne & Ht).
  assert (Htok : all_token_chars t = true).
  { destruct Ht as [-> | (d2 & Hd2 & ->)].
    - now apply all_digits_token.
    - rewrite all_token_chars_app. simpl.
      now rewrite !all_digits_token. }
  assert (Hdec : exists q, parse_decimal t = Some q).
  { destruct Ht as [-> | (d2 & Hd2 & ->)].
    - now apply parse_decimal_run.
    - now apply parse_decimal_point. }
  destruct Hdec as [q Hq].
  assert (Hfirst : exists c t', t = String c t' /\ is_digit c = true).
  { destruct d1 as [| c d1]; [contradiction |].
    simpl in Hd1. apply andb_true_iff in Hd1 as [Hc _].
    destruct Ht as [-> | (d2 & _ & ->)]; simpl; eauto. }
  destruct Hfirst as (c & t' & -> & Hc).
  split.
  - unfold float. rewrite strip_token, drop_underscores_token by exact Htok.
    unfold take_sign.
    assert (Hs : Ascii.eqb c "-" = false /\ Ascii.eqb c "+" = false).
    { apply is_digit_cases in Hc. simpl in Hc.
      repeat (destruct Hc as [<- | Hc]; [split; reflexivity |]).
      contradiction. }
    destruct Hs as [-> ->]. rewrite Hq. eexists. reflexivity.
  - assert (Htok' : all_token_chars (String "-" (String c t')) = true)
      by (simpl in *; exact Htok).
    unfold float. rewrite strip_token, drop_underscores_token by exact Htok'.
    simpl take_sign. cbv iota. rewrite Hq. eexists. reflexivity.
Qed.

(** A token found by the pattern is always a number for [float]. *)
Lemma first_token_parses (s tok : string) :
  first_token s = Some tok -> exists q, float tok = Ok (PyFloat.Fin q).
Proof.
  induction s as [| c s IH]; simpl; [discriminate |].
  destruct (is_digit c) eqn:Hc.
  - intro H. inversion H.
    apply (float_number (number_at (String c s))).
    apply number_at_shape. simpl. exact Hc.
  - destruct (Ascii.eqb c "-" && starts_with_digit s) eqn:Hm; [| exact IH].
    apply andb_true_iff in Hm as [Hminus Hd].
    apply Ascii.eqb_eq in Hminus. subst c.
    intro H. inversion H.
    apply (float_number (number_at s)). now apply number_at_shape.
Qed.

End Position.

(** ** build_key_position_registry.py: failures and keys *)

Section LayoutMore.
Import Geometry FloatParse Layout PyDictFacts.
Local Open Scope py_scope.

Lemma float_attr_cases (a : option string) :
  (exists x, float_attr a = Ok x) \/ float_attr a = Raise ValueError.
Proof.
  destruct a as [s |]; simpl; [| left; eauto].
  destruct (float s) as [x | e] eqn:E; [left; eauto |].
  right. now rewrite (float_raises s e E).
Qed.

Lemma float_first_token_cases (a : option string) :
  (exists x, float_first_token a = Ok x) \/
  (float_first_token a = Raise IndexError /\
   exists s, a = Some s /\ first_token s = None).
Proof.
  unfold float_first_token. destruct a as [s |].
  - destruct (first_token s) as [tok |] eqn:E.
    + left. destruct (first_token_parses s tok E) as [q ->]. eauto.
    + right. split; [reflexivity |]. exists s. auto.
  - left. simpl. eexists. reflexivity.
Qed.

Lemma position_raises (elem : KeyElem) (e : exn) :
  position elem = Raise e ->
  e = IndexError /\
  exists s, (data_key_x elem = Some s \/ data_key_y elem = Some s)
            /\ first_token s = None.
Proof.
  unfold position.
  assert (Hexcept :
            (x <- float_first_token (data_key_x elem) ;;
             y <- float_first_token (data_key_y elem) ;; Ok (x, y)) = Raise e ->
            e = IndexError /\
            exists s, (data_key_x elem = Some s \/ data_key_y elem = Some s)
                      /\ first_token s = None).
  { destruct (float_first_token_cases (data_key_x elem))
      as [[x ->] | (-> & s & Hs & Htok)]; simpl.
    - destruct (float_first_token_cases (data_key_y elem))
        as [[y ->] | (-> & s & Hs & Htok)]; simpl; [discriminate |].
      intro H. inversion H. split; [reflexivity |]. exists s. auto.
    - intro H. inversion H. split; [reflexivity |]. exists s. auto. }
  destruct (float_attr_cases (data_key_x elem)) as [[x ->] | ->]; simpl.
  - destruct (float_attr_cases (data_key_y elem)) as [[y ->] | ->]; simpl;
      [discriminate | exact Hexcept].
  - exact Hexcept.
Qed.

(** X22. Reading the position of a key fails in one way only: with
    [IndexError], and then one of the two attributes is present and holds
    no numeric token. A position whose attributes are absent or hold a
    numeric token is always read. *)
Theorem position_errors (elem : KeyElem) :
  (forall e, position elem = Raise e ->
     e = IndexError /\
     exists s, (data_key_x elem = Some s \/ data_key_y elem = Some s)
               /\ first_token s = None)
  /\ ((forall s, data_key_x elem = Some s -> first_token s <> None) ->
      (forall s, data_key_y elem = Some s -> first_token s <> None) ->
      exists x y, position elem = Ok (x, y)).
Proof.
  split; [apply position_raises |].
  intros Hx Hy. destruct (position elem) as [[x y] | e] eqn:E; [eauto |].
  apply position_raises in E as (_ & s & [Hs | Hs] & Htok).
  - now apply Hx in Hs.
  - now apply Hy in Hs.
Qed.

Lemma position_errors_witness :
  let elem := {| data_key_id := "k_f2";
                 data_key_x := Some "[n/a]"; data_key_y := Some "1";
                 data_key_labelid := None; rect := None |} in
  IndexError = IndexError /\
  exists s, (data_key_x elem = Some s \/ data_key_y elem = Some s)
            /\ first_token s = None.
Proof.
  intro elem. apply (proj1 (position_errors elem) IndexError). reflexivity.
Defined.

Lemma div_unit_mm (a : PyFloat.t) : exists u, PyFloat.div a UNIT_MM = Ok u.
Proof. unfold PyFloat.div. simpl. eexists. reflexivity. Qed.

(** Why one turn of the first loop fails. *)
Lemma gather_raises (st : pass1) (elem : KeyElem) (e : exn) :
  gather st elem = Raise e ->
  (e = IndexError /\
   exists s, (data_key_x elem = Some s \/ data_key_y elem = Some s)
             /\ first_token s = None)
  \/ (e = KeyError /\
      exists r, rect elem = Some r
                /\ (rect_width r = None \/ rect_height r = None))
  \/ (e = ValueError /\
      exists r s, rect elem = Some r
                  /\ (rect_width r = Some s \/ rect_height r = Some s)
                  /\ float s = Raise ValueError).
Proof.
  unfold gather.
  destruct (position elem) as [[x y] | e0] eqn:Hpos; cbn [bind].
  - destruct (rect elem) as [r |]; [| discriminate].
    assert (Hitem : forall a e1, float_item a = Raise e1 ->
              (e1 = KeyError /\ a = None) \/
              (e1 = ValueError /\ exists s, a = Some s
                                            /\ float s = Raise ValueError)).
    { intros [s |] e1 H; simpl in H.
      - right. assert (e1 = ValueError) by (eapply float_raises; eauto).
        subst. split; [reflexivity |]. exists s. auto.
      - left. inversion H. auto. }
    destruct (float_item (rect_width r)) as [w | e1] eqn:Hw; cbn [bind].
    + destruct (float_item (rect_height r)) as [h | e2] eqn:Hh; cbn [bind].
      * destruct (div_unit_mm w) as [wu ->].
        destruct (div_unit_mm h) as [hu ->]. cbn [bind]. discriminate.
      * intro H. inversion H; subst e2.
        destruct (Hitem _ _ Hh) as [[-> Hn] | [-> (s & Hs & Hf)]].
        -- right. left. split; [reflexivity |]. exists r. auto.
        -- right. right. split; [reflexivity |]. exists r, s. auto.
    + intro H. inversion H; subst e1.
      destruct (Hitem _ _ Hw) as [[-> Hn] | [-> (s & Hs & Hf)]].
      * right. left. split; [reflexivity |]. exists r. auto.
      * right. right. split; [reflexivity |]. exists r, s. auto.
  - intro H. inversion H; subst e0. left. now apply position_raises.
Qed.

Lemma first_pass_raises_at (elems : list KeyElem) (st : pass1) (e : exn) :
  first_pass st elems = Raise e ->
  exists st' elem, In elem elems /\ gather st' elem = Raise e.
Proof.
  revert st. induction elems as [| elem elems IH]; intros st H;
    [discriminate H |].
  cbn [first_pass] in H.
  destruct (gather st elem) as [st1 | e1] eqn:Hg; cbn [bind] in H.
  - destruct (IH _ H) as (st' & elem' & Hin & Hr).
    exists st', elem'. split; [now right | exact Hr].
  - inversion H; subst e1. exists st, elem. split; [now left | exact Hg].
Qed.

(** X23. The registry build stops on three kinds of key element only:
    with [IndexError] on a position attribute that holds no numeric token,
    with [KeyError] on a [<rect>] without [width] or [height], and with
    [ValueError] on a [<rect>] whose [width] or [height] is no number. *)
Theorem parse_key_layout_errors (elems : list KeyElem) (e : exn) :
  parse_key_layout elems = Raise e ->
  exists elem, In elem elems /\
    ((e = IndexError /\
      exists s, (data_key_x elem = Some s \/ data_key_y elem = Some s)
                /\ first_token s = None)
     \/ (e = KeyError /\
         exists r, rect elem = Some r
                   /\ (rect_width r = None \/ rect_height r = None))
     \/ (e = ValueError /\
         exists r s, rect elem = Some r
                     /\ (rect_width r = Some s \/ rect_height r = Some s)
                     /\ float s = Raise ValueError)).
Proof.
  unfold parse_key_layout. intro H.
  destruct (first_pass pass1_init elems) as [st | e0] eqn:Hfp;
    cbn [bind] in H; [discriminate H |].
  inversion H; subst e0.
  apply first_pass_raises_at in Hfp as (st' & elem & Hin & Hg).
  exists elem. split; [exact Hin |]. now apply gather_raises in Hg.
Qed.

Lemma parse_key_layout_errors_witness :
  let elem := {| data_key_id := "k_f1";
                 data_key_x := Some "1"; data_key_y := Some "1";
                 data_key_labelid := None;
                 rect := Some {| rect_width := Some "19.05";
                                 rect_height := None |} |} in
  parse_key_layout [elem] = Raise KeyError
  /\ exists elem', In elem' [elem] /\
       ((KeyError = IndexError /\
         exists s, (data_key_x elem' = Some s \/ data_key_y elem' = Some s)
                   /\ first_token s = None)
        \/ (KeyError = KeyError /\
            exists r, rect elem' = Some r
                      /\ (rect_width r = None \/ rect_height r = None))
        \/ (KeyError = ValueError /\
            exists r s, rect elem' = Some r
                        /\ (rect_width r = Some s \/ rect_height r = Some s)
                        /\ float s = Raise ValueError)).
Proof.
  intro elem. split; [reflexivity |].
  apply (parse_key_layout_errors [elem] KeyError). reflexivity.
Defined.

(** One turn of the first loop that succeeds: the extrema apart, the
    state is unchanged on a key without [<rect>], and gains the key with
    its position otherwise. *)
Lemma gather_ok (st st' : pass1) (elem : KeyElem) :
  gather st elem = Ok st' ->
  if has_rect elem
  then exists k, raw st' = raw st ++ [k] /\ raw_id k = data_key_id elem
                 /\ position elem = Ok (raw_x k, raw_y k)
  else raw st' = raw st.
Proof.
  unfold gather, has_rect.
  destruct (position elem) as [[x y] |]; cbn [bind]; [| discriminate].
  destruct (rect elem) as [r |].
  - destruct (float_item (rect_width r)) as [w |]; cbn [bind];
      [| discriminate].
    destruct (float_item (rect_height r)) as [h |]; cbn [bind];
      [| discriminate].
    destruct (div_unit_mm w) as [wu ->]. destruct (div_unit_mm h) as [hu ->].
    cbn [bind]. intro H. inversion H; subst st'. simpl.
    eexists. split; [reflexivity |]. simpl. auto.
  - intro H. inversion H; subst st'. reflexivity.
Qed.

Lemma first_pass_app (l1 l2 : list KeyElem) (st : pass1) :
  first_pass st (l1 ++ l2)
  = (st1 <- first_pass st l1 ;; first_pass st1 l2).
Proof.
  revert st. induction l1 as [| elem l1 IH]; intro st; [reflexivity |].
  simpl. destruct (gather st elem); cbn [bind]; [apply IH | reflexivity].
Qed.

Lemma first_pass_ids (elems : list KeyElem) (st st' : pass1) :
  first_pass st elems = Ok st' ->
  exists new,
    raw st' = raw st ++ new
    /\ map raw_id new = map data_key_id (filter has_rect elems).
Proof.
  revert st. induction elems as [| elem elems IH]; intros st H.
  - inversion H; subst. exists []. now rewrite app_nil_r.
  - cbn [first_pass] in H.
    destruct (gather st elem) as [st1 |] eqn:Hg; cbn [bind] in H;
      [| discriminate H].
    destruct (IH _ H) as (new & Hraw & Hids).
    apply gather_ok in Hg. simpl. destruct (has_rect elem).
    + destruct Hg as (k & Hk & Hid & _).
      exists (k :: new). rewrite Hraw, Hk, <- app_assoc. simpl.
      now rewrite Hid, Hids.
    + exists new. now rewrite Hraw, Hg.
Qed.

Lemma second_pass_keys (mx my : PyFloat.t) (raws : list raw_key)
      (acc : PyDict.dict KeyEntry) (k : string) :
  In k (PyDict.keys (fold_left (normalize mx my) raws acc)) <->
  In k (PyDict.keys acc) \/ In k (map raw_id raws).
Proof.
  revert acc. induction raws as [| r raws IH]; intro acc; simpl.
  - tauto.
  - rewrite IH. unfold normalize. rewrite keys_set.
    destruct (PyDict.mem (raw_id r) acc) eqn:E.
    + apply mem_true_iff in E. split; [tauto |].
      intros [H | [<- | H]]; auto.
    + rewrite in_app_iff. simpl. tauto.
Qed.

Lemma second_pass_wf (mx my : PyFloat.t) (raws : list raw_key)
      (acc : PyDict.dict KeyEntry) :
  PyDict.wf acc -> PyDict.wf (fold_left (normalize mx my) raws acc).
Proof.
  revert acc. induction raws as [| r raws IH]; intros acc H; [exact H |].
  simpl. apply IH. unfold normalize. now apply wf_set.
Qed.

(** X24. The keys of the registry are the ids of the key elements that
    have a [<rect>]: no id is twice in the registry, an element without
    [<rect>] gives no key, and when those ids are distinct the registry
    lists them in document order. *)
Theorem parse_key_layout_keys (elems : list KeyElem)
        (registry : PyDict.dict KeyEntry) :
  parse_key_layout elems = Ok registry ->
  PyDict.wf registry
  /\ (forall k, In k (PyDict.keys registry) <->
                In k (map data_key_id (filter has_rect elems)))
  /\ (NoDup (map data_key_id (filter has_rect elems)) ->
      PyDict.keys registry = map data_key_id (filter has_rect elems)).
Proof.
  unfold parse_key_layout. intro H.
  destruct (first_pass pass1_init elems) as [st |] eqn:Hfp;
    cbn [bind] in H; [| discriminate H].
  inversion H; subst registry. clear H.
  destruct (first_pass_ids _ _ _ Hfp) as (new & Hraw & Hids).
  simpl in Hraw. rewrite Hraw. repeat split.
  - apply second_pass_wf. constructor.
  - intro Hin. apply second_pass_keys in Hin as [[] | Hin]. congruence.
  - intro Hin. apply second_pass_keys. right. congruence.
  - intro Hnd. rewrite second_pass_spec by (simpl; congruence).
    simpl. unfold PyDict.keys. rewrite map_map. simpl. exact Hids.
Qed.

Lemma second_pass_get (mx my : PyFloat.t) (raws : list raw_key)
      (acc : PyDict.dict KeyEntry) (k : string) (entry : KeyEntry) :
  PyDict.get k acc = Some entry ->
  (forall r, In r raws -> raw_id r <> k) ->
  PyDict.get k (fold_left (normalize mx my) raws acc) = Some entry.
Proof.
  revert acc. induction raws as [| r raws IH]; intros acc Hget Hother;
    [exact Hget |].
  simpl. apply IH.
  - unfold normalize. rewrite get_set_other; [exact Hget |].
    apply Hother. now left.
  - intros r' Hr'. apply Hother. now right.
Qed.

(** X25. When several key elements share an id, the registry holds the
    geometry of the last of them: the entry under the id of an element
    with [<rect>] that no later element with [<rect>] repeats carries the
    position read from that element. *)
Theorem parse_key_layout_last_wins (before after : list KeyElem)
        (elem : KeyElem) (registry : PyDict.dict KeyEntry) :
  parse_key_layout (before ++ elem :: after) = Ok registry ->
  has_rect elem = true ->
  (forall later, In later after -> has_rect later = true ->
     data_key_id later <> data_key_id elem) ->
  exists entry,
    PyDict.get (data_key_id elem) registry = Some entry
    /\ position elem = Ok (x_u entry, y_u entry).
Proof.
  unfold parse_key_layout. intros H Hrect Hlast.
  destruct (first_pass pass1_init (before ++ elem :: after)) as [st |]
    eqn:Hfp; cbn [bind] in H; [| discriminate H].
  inversion H; subst registry. clear H.
  rewrite first_pass_app in Hfp.
  destruct (first_pass pass1_init before) as [st1 |] eqn:H1;
    cbn [bind] in Hfp; [| discriminate Hfp].
  cbn [first_pass] in Hfp.
  destruct (gather st1 elem) as [st2 |] eqn:Hg; cbn [bind] in Hfp;
    [| discriminate Hfp].
  apply gather_ok in Hg. rewrite Hrect in Hg.
  destruct Hg as (k & Hk & Hid & Hpos).
  destruct (first_pass_ids _ _ _ Hfp) as (new & Hraw & Hids).
  rewrite Hraw, Hk, <- app_assoc. simpl. rewrite fold_left_app. simpl.
  exists (entry_of (min_x st) (min_y st) k). split.
  - apply second_pass_get.
    + unfold normalize. rewrite Hid. apply get_set_same.
    + intros r Hr Heq.
      assert (Hin : In (raw_id r) (map data_key_id (filter has_rect after)))
        by (rewrite <- Hids; now apply in_map).
      apply in_map_iff in Hin as (later & Hl & Hf).
      apply filter_In in Hf as [Hf1 Hf2].
      apply (Hlast later Hf1 Hf2). congruence.
  - destruct (entry_of_left (min_x st) (min_y st) k) as (_ & _ & -> & ->).
    exact Hpos.
Qed.

End LayoutMore.

(** ** build_key_position_registry.py: sample layouts *)

Section LayoutSamples.

Import Geometry FloatParse Layout.

Lemma parse_key_layout_keys_witness :
  let elems := [sample_key "k_esc" "0" "0" false;
                sample_key "k_f2" "2" "1" true;
                sample_key "k_f1" "1" "1" true] in
  exists registry,
    parse_key_layout elems = Ok registry
    /\ PyDict.wf registry
    /\ (forall k, In k (PyDict.keys registry) <->
                  In k (map data_key_id (filter has_rect elems)))
    /\ (NoDup (map data_key_id (filter has_rect elems)) ->
        PyDict.keys registry = map data_key_id (filter has_rect elems)).
Proof.
  intro elems. eexists. split; [reflexivity |].
  apply (parse_key_layout_keys elems). reflexivity.
Defined.

Lemma parse_key_layout_last_wins_witness :
  let first := sample_key "k_f1" "1" "1" true in
  let other := sample_key "k_f2" "2" "1" true in
  let again := sample_key "k_f1" "5" "3" true in
  exists registry entry,
    parse_key_layout ([first; other] ++ again :: [other]) = Ok registry
    /\ PyDict.get "k_f1" registry = Some entry
    /\ position again = Ok (x_u entry, y_u entry).
Proof.
  intros first other again.
  destruct (parse_key_layout_last_wins [first; other] [other] again _ eq_refl)
    as (entry & Hget & Hpos).
  - reflexivity.
  - intros later [<- | []] _. discriminate.
  - eexists. exists entry. split; [reflexivity |]. split; assumption.
Defined.

Lemma parse_key_layout_origin_witness :
  let elems := [sample_key "k_f2" "2" "1" true;
                sample_key "k_f1" "1" "3" true] in
  exists registry,
    parse_key_layout elems = Ok registry
    /\ ((exists k e, In (k, e) registry /\ left_u e = PyFloat.zero)
        /\ (forall k e, In (k, e) registry ->
              exists q, left_u e = PyFloat.Fin q /\ (0 <= q)%Q))
    /\ ((exists k e, In (k, e) registry /\ top_u e = PyFloat.zero)
        /\ (forall k e, In (k, e) registry ->
              exists q, top_u e = PyFloat.Fin q /\ (0 <= q)%Q)).
Proof.
  intro elems. eexists. split; [reflexivity |].
  apply (parse_key_layout_origin elems); [reflexivity | | | |].
  - repeat constructor; discriminate.
  - repeat constructor; simpl; intuition discriminate.
  - vm_compute. discriminate.
  - intros k e Hin. vm_compute in Hin.
    destruct Hin as [H | [H | []]]; inversion H; subst; split; reflexivity.
Defined.

End LayoutSamples.
